(** * Surface drag: a shallow embedding of [src/slic3r/GUI/SurfaceDrag.cpp]

    The file follows the translation unit top-down: the small part of Eigen
    the code leans on (fixed-size vectors, 3x3 matrices, affine transforms),
    the data the functions read and write (scene volumes, the model, the
    canvas, the drag session), the functions themselves, and then the
    properties.

    Numbers.  [double] is IEEE-754 binary64, taken from the kernel's
    primitive floats, so that [<], [==], NaN and rounding behave as they do
    in the compiled program.  The vector algebra is written once over a
    [Scalar] interface (Eigen is a template library over its scalar type) and
    is read at [double] by the program and at the real numbers where a law of
    exact arithmetic is stated.

    A sum of three products is associated as [a + (b + c)], one of the
    orders Eigen's unrolled reductions may take; no property below depends
    on the order, and the examples use axis-aligned data, for which the
    order does not change the sum.

    Assertions.  [assert] is compiled out ([NDEBUG]); the [if] that repeats
    each assertion is kept.

    Undefined behaviour.  Dereferencing an empty [std::optional] or a pointer
    that does not point into the scene is the outcome [Undefined]. *)

From Stdlib Require Import Bool ZArith List String Lia.
From Stdlib Require Import Floats.
From Stdlib Require Import Reals Lra.
Import ListNotations.

Set Implicit Arguments.

(* ------------------------------------------------------------------------- *)
(** ** Scalars *)

(** The operations Eigen's expressions use on their scalar type.  [s_ltb] is
    the C++ [operator<]. *)
Class Scalar (T : Type) : Type := {
  s_zero : T;
  s_one  : T;
  s_add  : T -> T -> T;
  s_sub  : T -> T -> T;
  s_mul  : T -> T -> T;
  s_div  : T -> T -> T;
  s_opp  : T -> T;
  s_sqrt : T -> T;
  s_ltb  : T -> T -> bool
}.

Declare Scope scalar_scope.
Delimit Scope scalar_scope with S.
Infix "+" := s_add : scalar_scope.
Infix "-" := s_sub : scalar_scope.
Infix "*" := s_mul : scalar_scope.
Infix "/" := s_div : scalar_scope.
Notation "- x" := (s_opp x) : scalar_scope.

(** [double]: IEEE-754 binary64. *)
Definition double : Type := float.

#[export] Instance double_scalar : Scalar double := {|
  s_zero := 0%float;
  s_one  := 1%float;
  s_add  := PrimFloat.add;
  s_sub  := PrimFloat.sub;
  s_mul  := PrimFloat.mul;
  s_div  := PrimFloat.div;
  s_opp  := PrimFloat.opp;
  s_sqrt := PrimFloat.sqrt;
  s_ltb  := PrimFloat.ltb
|}.

(** Exact arithmetic: the real numbers, for laws that hold before rounding. *)
Definition Rltb (x y : R) : bool := if Rlt_dec x y then true else false.

#[export] Instance real_scalar : Scalar R := {|
  s_zero := 0%R;
  s_one  := 1%R;
  s_add  := Rplus;
  s_sub  := Rminus;
  s_mul  := Rmult;
  s_div  := Rdiv;
  s_opp  := Ropp;
  s_sqrt := R_sqrt.sqrt;
  s_ltb  := Rltb
|}.

(* ------------------------------------------------------------------------- *)
(** ** Fixed-size linear algebra (the part of Eigen the file uses) *)

Section Eigen.
Context {T : Type} {ST : Scalar T}.
Local Open Scope scalar_scope.

(** [Eigen::Matrix<T, 3, 1>] *)
Record Vec3 : Type := mkVec3 { vx : T; vy : T; vz : T }.

(** [Eigen::Matrix<T, 3, 3>], stored by columns as Eigen does by default, so
    that [col(i)] is a field. *)
Record Matrix3 : Type := mkMatrix3 { col0 : Vec3; col1 : Vec3; col2 : Vec3 }.

(** [Eigen::Transform<T, 3, Eigen::Affine>]: [linear()] and [translation()].
    The last row of the 4x4 matrix is the constant (0, 0, 0, 1). *)
Record Transform3 : Type := mkTransform3 { linear : Matrix3; translation : Vec3 }.

Definition Vec3_Zero  : Vec3 := mkVec3 s_zero s_zero s_zero.
Definition Vec3_UnitX : Vec3 := mkVec3 s_one s_zero s_zero.
Definition Vec3_UnitY : Vec3 := mkVec3 s_zero s_one s_zero.
Definition Vec3_UnitZ : Vec3 := mkVec3 s_zero s_zero s_one.

Definition vadd (a b : Vec3) : Vec3 := mkVec3 (vx a + vx b) (vy a + vy b) (vz a + vz b).
Definition vsub (a b : Vec3) : Vec3 := mkVec3 (vx a - vx b) (vy a - vy b) (vz a - vz b).
Definition vopp (a : Vec3) : Vec3 := mkVec3 (- vx a) (- vy a) (- vz a).
(** [v * k] *)
Definition vscale (a : Vec3) (k : T) : Vec3 := mkVec3 (vx a * k) (vy a * k) (vz a * k).
(** [v / k] *)
Definition vdiv (a : Vec3) (k : T) : Vec3 := mkVec3 (vx a / k) (vy a / k) (vz a / k).

(** [a.dot(b)] *)
Definition dot (a b : Vec3) : T := vx a * vx b + (vy a * vy b + vz a * vz b).
(** [a.squaredNorm()] *)
Definition squaredNorm (a : Vec3) : T := dot a a.
(** [a.cross(b)] *)
Definition cross (a b : Vec3) : Vec3 :=
  mkVec3 (vy a * vz b - vz a * vy b)
         (vz a * vx b - vx a * vz b)
         (vx a * vy b - vy a * vx b).
(** [a.normalize()]: Eigen divides by the norm only when the squared norm is
    positive. *)
Definition normalize (a : Vec3) : Vec3 :=
  let z := squaredNorm a in
  if s_ltb s_zero z then vdiv a (s_sqrt z) else a.

Definition Matrix3_Identity : Matrix3 := mkMatrix3 Vec3_UnitX Vec3_UnitY Vec3_UnitZ.

(** [m * v]: the combination of the columns of [m] with the entries of [v]. *)
Definition mat_vec (m : Matrix3) (v : Vec3) : Vec3 :=
  vadd (vscale (col0 m) (vx v)) (vadd (vscale (col1 m) (vy v)) (vscale (col2 m) (vz v))).

(** [a * b] *)
Definition mat_mul (a b : Matrix3) : Matrix3 :=
  mkMatrix3 (mat_vec a (col0 b)) (mat_vec a (col1 b)) (mat_vec a (col2 b)).

(** [m.col(2) = v] *)
Definition set_col2 (m : Matrix3) (v : Vec3) : Matrix3 := mkMatrix3 (col0 m) (col1 m) v.

(** [m(0, 0)] *)
Definition coeff00 (m : Matrix3) : T := vx (col0 m).

Definition Transform3_Identity : Transform3 := mkTransform3 Matrix3_Identity Vec3_Zero.

(** [tr * v] for a point [v]. *)
Definition tr_apply (tr : Transform3) (v : Vec3) : Vec3 :=
  vadd (mat_vec (linear tr) v) (translation tr).

(** [a * b] on affine transforms. *)
Definition tr_mul (a b : Transform3) : Transform3 :=
  mkTransform3 (mat_mul (linear a) (linear b)) (tr_apply a (translation b)).

(** [Eigen::Translation<T, 3>(v)] as a transform. *)
Definition Translation3 (v : Vec3) : Transform3 := mkTransform3 Matrix3_Identity v.

(** A rotation matrix (a quaternion, an angle-axis) times a transform. *)
Definition rot_mul (r : Matrix3) (t : Transform3) : Transform3 :=
  mkTransform3 (mat_mul r (linear t)) (mat_vec r (translation t)).

(** [tr.linear() = m] *)
Definition set_linear (tr : Transform3) (m : Matrix3) : Transform3 :=
  mkTransform3 m (translation tr).

(** [dragging], the block commented "Reset skew of the text Z axis": the old
    Z axis is projected onto the normal of the old XY plane.
<<
    Vec3d old_z         = world_linear.col(2);
    Vec3d new_z         = world_linear.col(0).cross(world_linear.col(1));
    world_linear.col(2) = new_z * (old_z.dot(new_z) / new_z.squaredNorm());
>> *)
Definition reset_skew (world_linear : Matrix3) : Matrix3 :=
  let old_z := col2 world_linear in
  let new_z := cross (col0 world_linear) (col1 world_linear) in
  set_col2 world_linear (vscale new_z (dot old_z new_z / squaredNorm new_z)).

End Eigen.

Arguments Vec3 T : clear implicits.
Arguments Matrix3 T : clear implicits.
Arguments Transform3 T : clear implicits.

Definition Vec3d : Type := Vec3 double.
Definition Matrix3d : Type := Matrix3 double.
Definition Transform3d : Type := Transform3 double.

(* ------------------------------------------------------------------------- *)
(** ** Plain numbers of the program *)

Local Open Scope float_scope.

(** [float]: IEEE-754 binary32.  Every binary32 value is a binary64 value, so
    a [float] is kept as the [double] it is equal to. *)
Definition float32 : Type := double.

(** [static_cast<float>(x)]: round to the nearest binary32 value, ties to
    even; infinities and NaN are kept. *)
Definition to_float32 (x : double) : float32 :=
  match Prim2SF x with
  | S754_finite s m e => SF2Prim (binary_round 24 128 s m e)
  | _ => x
  end.

(** The product of two [float]s. *)
Definition mulf32 (a b : float32) : float32 := to_float32 (a * b).

(** [static_cast<double>(i)] for an [int]. *)
Definition double_of_int (i : Z) : double :=
  match i with
  | Z0 => 0
  | Zpos _ => PrimFloat.of_uint63 (Uint63.of_Z i)
  | Zneg p => - PrimFloat.of_uint63 (Uint63.of_Z (Zpos p))
  end.

(** [x != x], the test for NaN the code writes out. *)
Definition differs_from_itself (x : double) : bool := negb (PrimFloat.eqb x x).

(** No entry of the vector, of the transform, is a NaN or an infinity. *)
Definition finite_vec (v : Vec3d) : bool :=
  PrimFloat.is_finite (vx v) && PrimFloat.is_finite (vy v) && PrimFloat.is_finite (vz v).

Definition all_finite (tr : Transform3d) : bool :=
  finite_vec (col0 (linear tr)) && finite_vec (col1 (linear tr))
  && finite_vec (col2 (linear tr)) && finite_vec (translation tr).

(** [std::max(a, b)] is [(a < b) ? b : a]. *)
Definition std_max (a b : double) : double := if PrimFloat.ltb a b then b else a.

(** [<cmath>]: the doubles nearest to pi/2 and to pi. *)
Definition M_PI_2 : double := 0x1.921fb54442d18p+0.
Definition M_PI   : double := 0x1.921fb54442d18p+1.

(** [Slic3r::MinMax<double>] *)
Record MinMax : Type := mkMinMax { mm_min : double; mm_max : double }.

(** [constexpr Slic3r::MinMax<double> surface_distance_sq{1e-4, 10.};]
    ([0x1.a36e2eb1c432dp-14] is the double the literal [1e-4] denotes.) *)
Definition surface_distance_sq : MinMax := mkMinMax 0x1.a36e2eb1c432dp-14 10.

(** [Vec2d], [Vec2i] *)
Record Vec2d : Type := mkVec2d { x2d : double; y2d : double }.
Record Vec2i : Type := mkVec2i { x2i : Z; y2i : Z }.

Definition cast_double (p : Vec2i) : Vec2d := mkVec2d (double_of_int (x2i p)) (double_of_int (y2i p)).
Definition add2d (a b : Vec2d) : Vec2d := mkVec2d (x2d a + x2d b) (y2d a + y2d b).
Definition sub2d (a b : Vec2d) : Vec2d := mkVec2d (x2d a - x2d b) (y2d a - y2d b).

(* ------------------------------------------------------------------------- *)
(** ** Outcomes *)

(** What a call does: it returns, or it runs into undefined behaviour. *)
Inductive result (A : Type) : Type :=
| Ok (a : A)
| Undefined.
Arguments Undefined {A}.

Definition bind {A B : Type} (c : result A) (k : A -> result B) : result B :=
  match c with
  | Ok a => k a
  | Undefined => Undefined
  end.

(** [*p] for a pointer that may dangle, [*o] for an optional that may be
    empty. *)
Definition deref {A : Type} (o : option A) : result A :=
  match o with
  | Some a => Ok a
  | None => Undefined
  end.

Notation "'let*' x ':=' c 'in' k" := (bind c (fun x => k))
  (at level 10, x name, c at level 100, k at level 200).

(* ------------------------------------------------------------------------- *)
(** ** Pointer events *)

(** wxWidgets' mouse event types. *)
Inductive wxEventType : Type :=
| wxEVT_LEFT_DOWN | wxEVT_LEFT_UP
| wxEVT_MIDDLE_DOWN | wxEVT_MIDDLE_UP
| wxEVT_RIGHT_DOWN | wxEVT_RIGHT_UP
| wxEVT_MOTION
| wxEVT_ENTER_WINDOW | wxEVT_LEAVE_WINDOW
| wxEVT_MOUSEWHEEL.

(** [wxMouseEvent]: the event type, the buttons held when it was generated
    and the pointer position. *)
Record wxMouseEvent : Type := mkMouseEvent {
  GetEventType : wxEventType;
  LeftIsDown   : bool;
  MiddleIsDown : bool;
  RightIsDown  : bool;
  Aux1IsDown   : bool;
  Aux2IsDown   : bool;
  GetX : Z;
  GetY : Z
}.

Definition is_motion (t : wxEventType) : bool :=
  match t with wxEVT_MOTION => true | _ => false end.

(** [ButtonIsDown(wxMOUSE_BTN_ANY)] *)
Definition AnyButtonIsDown (e : wxMouseEvent) : bool :=
  LeftIsDown e || MiddleIsDown e || RightIsDown e || Aux1IsDown e || Aux2IsDown e.

(** A motion event with a button held. *)
Definition Dragging (e : wxMouseEvent) : bool :=
  is_motion (GetEventType e) && AnyButtonIsDown e.

(** A motion event with no button held. *)
Definition Moving (e : wxMouseEvent) : bool :=
  is_motion (GetEventType e) && negb (AnyButtonIsDown e).

Definition LeftDown (e : wxMouseEvent) : bool :=
  match GetEventType e with wxEVT_LEFT_DOWN => true | _ => false end.

Definition LeftUp (e : wxMouseEvent) : bool :=
  match GetEventType e with wxEVT_LEFT_UP => true | _ => false end.

(** [mouse_position]
<<
    Vec2i mouse_coord(mouse_event.GetX(), mouse_event.GetY());
    return mouse_coord.cast<double>();
>> *)
Definition mouse_position (mouse_event : wxMouseEvent) : Vec2d :=
  cast_double (mkVec2i (GetX mouse_event) (GetY mouse_event)).

(* ------------------------------------------------------------------------- *)
(** ** The model and the scene *)

(** [EmbossProjection]: only [use_surface] is read here. *)
Record EmbossProjection : Type := mkEmbossProjection { use_surface : bool }.

(** [EmbossShape]: the projection and the fix of the transformation baked by
    the .3mf store process. *)
Record EmbossShape : Type := mkEmbossShape {
  projection : EmbossProjection;
  fix_3mf_tr : option Transform3d
}.

(** [ModelVolume]: [id().id], [get_matrix()], [emboss_shape]. *)
Record ModelVolume : Type := mkModelVolume {
  mv_id        : Z;
  mv_matrix    : Transform3d;
  emboss_shape : option EmbossShape
}.

(** [ModelInstance]: [get_matrix()]. *)
Record ModelInstance : Type := mkModelInstance { mi_matrix : Transform3d }.

(** [ModelObject]: [volumes] and [instances]. *)
Record ModelObject : Type := mkModelObject {
  volumes   : list ModelVolume;
  instances : list ModelInstance
}.

(** [BoundingBoxf3]; [size()] is [max - min]. *)
Record BoundingBoxf3 : Type := mkBoundingBoxf3 { bb_min : Vec3d; bb_max : Vec3d }.
Definition bb_size (bb : BoundingBoxf3) : Vec3d := vsub (bb_max bb) (bb_min bb).

(** [GLVolume], a scene volume: the indices of the model entities it draws,
    its transformations, the SLA shift and the bounding box of its mesh. *)
Record GLVolume : Type := mkGLVolume {
  object_idx   : Z;
  volume_idx   : Z;
  instance_idx : Z;
  get_volume_transformation   : Transform3d;
  get_instance_transformation : Transform3d;
  get_sla_shift_z : double;
  bounding_box    : BoundingBoxf3
}.

(** [vol->set_volume_transformation(tr)] *)
Definition set_volume_transformation (vol : GLVolume) (tr : Transform3d) : GLVolume :=
  mkGLVolume (object_idx vol) (volume_idx vol) (instance_idx vol)
             tr (get_instance_transformation vol)
             (get_sla_shift_z vol) (bounding_box vol).

(** [Selection]: the indices of the selected scene volumes, in order. *)
Record Selection : Type := mkSelection { get_volume_idxs : list nat }.

Definition sel_is_empty (sel : Selection) : bool :=
  match get_volume_idxs sel with [] => true | _ => false end.

(** [GLCanvas3D], as far as this file reads and writes it: the scene volumes,
    the selection, the model's objects, the first hovered volume index (-1
    when none), the moving and picking switches, the dirty flag, and the
    labels [do_move] was called with, latest first. *)
Record GLCanvas3D : Type := mkGLCanvas3D {
  gl_volumes : list GLVolume;
  get_selection : Selection;
  model_objects : list ModelObject;
  get_first_hover_volume_idx : Z;
  moving_enabled  : bool;
  picking_enabled : bool;
  dirty : bool;
  moves_done : list string
}.

Definition with_volumes (c : GLCanvas3D) (vs : list GLVolume) : GLCanvas3D :=
  mkGLCanvas3D vs (get_selection c) (model_objects c) (get_first_hover_volume_idx c)
               (moving_enabled c) (picking_enabled c) (dirty c) (moves_done c).

Definition with_objects (c : GLCanvas3D) (os : list ModelObject) : GLCanvas3D :=
  mkGLCanvas3D (gl_volumes c) (get_selection c) os (get_first_hover_volume_idx c)
               (moving_enabled c) (picking_enabled c) (dirty c) (moves_done c).

(** Modelled from the spec: [GLCanvas3D::do_move] (GLCanvas3D.cpp) is the
    undo/redo boundary that writes the scene transformations into the model;
    the embedding records that it ran, and under which label. *)
Definition do_move (snapshot_name : string) (c : GLCanvas3D) : GLCanvas3D :=
  mkGLCanvas3D (gl_volumes c) (get_selection c) (model_objects c) (get_first_hover_volume_idx c)
               (moving_enabled c) (picking_enabled c) (dirty c) (snapshot_name :: moves_done c).

(** Modelled from the spec: [GLCanvas3D::enable_moving] switches ordinary
    translation of objects by the pointer. *)
Definition enable_moving (enable : bool) (c : GLCanvas3D) : GLCanvas3D :=
  mkGLCanvas3D (gl_volumes c) (get_selection c) (model_objects c) (get_first_hover_volume_idx c)
               enable (picking_enabled c) (dirty c) (moves_done c).

(** Modelled from the spec: [GLCanvas3D::enable_picking] switches ordinary
    picking. *)
Definition enable_picking (enable : bool) (c : GLCanvas3D) : GLCanvas3D :=
  mkGLCanvas3D (gl_volumes c) (get_selection c) (model_objects c) (get_first_hover_volume_idx c)
               (moving_enabled c) enable (dirty c) (moves_done c).

(** Modelled from the spec: [GLCanvas3D::set_as_dirty] is the "mark dirty"
    signal that requests a redraw. *)
Definition set_as_dirty (c : GLCanvas3D) : GLCanvas3D :=
  mkGLCanvas3D (gl_volumes c) (get_selection c) (model_objects c) (get_first_hover_volume_idx c)
               (moving_enabled c) (picking_enabled c) true (moves_done c).

(** [v[i]] for an [int] index: nothing when the index is negative or past
    the end. *)
Definition at_index {A : Type} (l : list A) (i : Z) : option A :=
  if (i <? 0)%Z then None else nth_error l (Z.to_nat i).

(** Modelled from the spec: [get_model_object(gl_volume, objects)]
    (Selection.cpp), the lookup "by identity" of the object a scene volume
    draws: the object at the volume's object index, null when the index is
    out of range. *)
Definition get_model_object (gl_volume : GLVolume) (objects : list ModelObject) : option ModelObject :=
  at_index objects (object_idx gl_volume).

(** Modelled from the spec: [get_model_instance(gl_volume, object)]
    (Selection.cpp), the instance at the volume's instance index. *)
Definition get_model_instance (gl_volume : GLVolume) (object : ModelObject) : option ModelInstance :=
  at_index (instances object) (instance_idx gl_volume).

(** Modelled from the spec: [get_model_volume(gl_volume, object)]
    (Selection.cpp), the model volume at the volume's volume index. *)
Definition get_model_volume (gl_volume : GLVolume) (object : ModelObject) : option ModelVolume :=
  at_index (volumes object) (volume_idx gl_volume).

(** Modelled from the spec: [get_model_volume(gl_volume, objects)]
    (Selection.cpp), through the object. *)
Definition get_model_volume_in (gl_volume : GLVolume) (objects : list ModelObject) : option ModelVolume :=
  match get_model_object gl_volume objects with
  | Some object => get_model_volume gl_volume object
  | None => None
  end.

(** [l[i] = f(l[i])] *)
Fixpoint update_nth {A : Type} (l : list A) (i : nat) (f : A -> A) : list A :=
  match l, i with
  | [], _ => []
  | a :: l', O => f a :: l'
  | a :: l', S i' => a :: update_nth l' i' f
  end.

(** [volume->set_transformation(tr)] on the model volume a scene volume
    draws. *)
Definition set_transformation (mv : ModelVolume) (tr : Transform3d) : ModelVolume :=
  mkModelVolume (mv_id mv) tr (emboss_shape mv).

Definition set_model_volume_transformation
    (gl_volume : GLVolume) (tr : Transform3d) (objects : list ModelObject) : list ModelObject :=
  update_nth objects (Z.to_nat (object_idx gl_volume))
    (fun o => mkModelObject
                (update_nth (volumes o) (Z.to_nat (volume_idx gl_volume))
                            (fun mv => set_transformation mv tr))
                (instances o)).

(* ------------------------------------------------------------------------- *)
(** ** The collaborators *)

Section SurfaceDrag.

(** Types declared in headers that are not part of the translation unit:
    [Camera], [RaycastManager], its conditions [RaycastManager::AllowVolumes],
    [RaycastManager::Meshes] and the key [RaycastManager::TrKey]. *)
Context {Camera RaycastManager AllowVolumes Meshes TrKey : Type}.

(** [RaycastManager::Hit]: position and normal in the space of the mesh that
    was hit, the key of the transformation into the world, and the squared
    distance. *)
Record Hit : Type := mkHit {
  position : Vec3d;
  normal   : Vec3d;
  tr_key   : TrKey;
  squared_distance : double
}.

(** What the file calls and does not define: libm, Eigen's inverse and
    shortest-arc quaternion, libslic3r's helpers, the camera, and the mesh
    raycast service.  Each is a function of what the call is given; the
    properties below hold whatever these functions compute. *)
Class Collaborators : Type := {
  (* <cmath> *)
  std_cos  : double -> double;
  std_sin  : double -> double;
  std_acos : double -> double;
  std_pow  : double -> double -> double;
  (* Eigen: [tr.inverse()], and
     [Quaternion::FromTwoVectors(a, b)] as the rotation matrix it stands for *)
  inverse : Transform3d -> Transform3d;
  FromTwoVectors : Vec3d -> Vec3d -> Matrix3d;
  (* libslic3r *)
  EPSILON : double;
  is_approx : double -> double -> double -> bool;
  is_approx_vec : Vec3d -> Vec3d -> bool;
  get_z_base : Transform3d -> Vec3d;
  is_the_only_one_part : ModelObject -> ModelVolume -> bool;
  calc_up : Transform3d -> double -> option float32;
  suggest_up : Vec3d -> double -> Vec3d;
  apply_transformation : option float32 -> option float32 -> Transform3d -> Transform3d;
  (* the scene *)
  get_selected_gl_volume : Selection -> list GLVolume -> option nat;
  world_matrix : GLVolume -> Transform3d;
  (* the camera *)
  get_dir_forward : Camera -> Vec3d;
  project : Camera -> Vec3d -> Vec2i;
  (* the mesh raycast service *)
  create_condition : list ModelVolume -> Z -> AllowVolumes;
  create_meshes : GLCanvas3D -> AllowVolumes -> Meshes;
  actualize : RaycastManager -> ModelInstance -> AllowVolumes -> Meshes -> RaycastManager;
  closest_hit : RaycastManager -> Vec3d -> Vec3d -> AllowVolumes -> option Hit;
  get_transformation : RaycastManager -> TrKey -> Transform3d;
  ray_from_camera : RaycastManager -> Vec2d -> Camera -> AllowVolumes -> option Hit
}.

Context {collaborators : Collaborators}.

(** [Eigen::AngleAxis(angle, axis)] assigned to a transform: the rotation
    matrix of Rodrigues' formula, as [AngleAxis::toRotationMatrix] computes
    it, and no translation. *)
Definition AngleAxis (angle : double) (axis : Vec3d) : Transform3d :=
  let sin_axis  := vscale axis (std_sin angle) in
  let c         := std_cos angle in
  let cos1_axis := vscale axis (1 - c) in
  let t01 := vx cos1_axis * vy axis in
  let t02 := vx cos1_axis * vz axis in
  let t12 := vy cos1_axis * vz axis in
  mkTransform3
    (mkMatrix3
       (mkVec3 (vx cos1_axis * vx axis + c) (t01 + vz sin_axis) (t02 - vy sin_axis))
       (mkVec3 (t01 - vz sin_axis) (vy cos1_axis * vy axis + c) (t12 + vx sin_axis))
       (mkVec3 (t02 + vy sin_axis) (t12 - vx sin_axis) (vz cos1_axis * vz axis + c)))
    Vec3_Zero.

(* ------------------------------------------------------------------------- *)
(** ** The drag session *)

(** [SurfaceDrag], in the order [start_dragging] initialises it.  [gl_volume]
    is a pointer into the scene's volumes: an index. *)
Record SurfaceDrag : Type := mkSurfaceDrag {
  mouse_offset   : Vec2d;
  world          : Transform3d;
  instance_inv   : Transform3d;
  gl_volume      : nat;
  condition      : AllowVolumes;
  start_angle    : option float32;
  start_distance : option float32;
  exist_hit      : bool;
  mouse_offset_without_sla_shift : Vec2d
}.

Definition set_exist_hit (sd : SurfaceDrag) (b : bool) : SurfaceDrag :=
  mkSurfaceDrag (mouse_offset sd) (world sd) (instance_inv sd) (gl_volume sd) (condition sd)
                (start_angle sd) (start_distance sd) b (mouse_offset_without_sla_shift sd).

Definition set_world (sd : SurfaceDrag) (w : Transform3d) : SurfaceDrag :=
  mkSurfaceDrag (mouse_offset sd) w (instance_inv sd) (gl_volume sd) (condition sd)
                (start_angle sd) (start_distance sd) (exist_hit sd) (mouse_offset_without_sla_shift sd).

(** What the handler is given by reference: the optional session, the canvas
    and the raycast manager. *)
Record State : Type := mkState {
  surface_drag    : option SurfaceDrag;
  canvas          : GLCanvas3D;
  raycast_manager : RaycastManager
}.

(* ------------------------------------------------------------------------- *)
(** ** The functions *)

(** [calc_scale]: the scale between two linear maps along [dir], none when
    the squared scales agree within 1e-3.  Only the assertions of [dragging]
    call it. *)
Definition calc_scale (from to : Matrix3d) (dir : Vec3d) : option double :=
  let from_dir := mat_vec from dir in
  let to_dir   := mat_vec to dir in
  let from_scale_sq := squaredNorm from_dir in
  let to_scale_sq   := squaredNorm to_dir in
  if is_approx from_scale_sq to_scale_sq 0x1.0624dd2f1a9fcp-10 then None
  else Some (PrimFloat.sqrt (from_scale_sq / to_scale_sq)).

(** [world_matrix_fixed(gl_volume, objects)] *)
Definition world_matrix_fixed (gl_vol : GLVolume) (objects : list ModelObject) : Transform3d :=
  let res := world_matrix gl_vol in
  match get_model_volume_in gl_vol objects with
  | None => res
  | Some mv =>
    match emboss_shape mv with
    | None => res
    | Some es =>
      match fix_3mf_tr es with
      | None => res
      | Some fix_tr => tr_mul res (inverse fix_tr)
      end
    end
  end.

(** [world_matrix_fixed(selection)] *)
Definition world_matrix_fixed_sel (c : GLCanvas3D) : result Transform3d :=
  match get_selected_gl_volume (get_selection c) (gl_volumes c) with
  | None => Ok Transform3_Identity
  | Some p =>
    let* gl_vol := deref (nth_error (gl_volumes c) p) in
    Ok (world_matrix_fixed gl_vol (model_objects c))
  end.

(** The offset, in the world, from the volume's origin to the hit
    ([calc_distance], the lines from [Transform3d w] to [Vec3d p_to_hit]);
    its squared norm is [distance_sq]. *)
Definition p_to_hit_of (gl_vol : GLVolume) (raycaster : RaycastManager) (hit : Hit) : Vec3d :=
  let w := world_matrix gl_vol in
  let p := translation w in
  let tr := get_transformation raycaster (tr_key hit) in
  let hit_world := tr_apply tr (position hit) in
  vsub hit_world p.

(** [std::max(std::pow(2 * bb.size().z(), 2), ::surface_distance_sq.max)] *)
Definition max_squared_distance (gl_vol : GLVolume) : double :=
  std_max (std_pow (2 * vz (bb_size (bounding_box gl_vol))) 2) (mm_max surface_distance_sq).

(** [calc_distance(gl_volume, raycaster, condition)] *)
Definition calc_distance (gl_vol : GLVolume) (raycaster : RaycastManager) (cond : AllowVolumes)
  : option float32 :=
  let w   := world_matrix gl_vol in
  let p   := translation w in
  let dir := vopp (get_z_base w) in
  match closest_hit raycaster p dir cond with
  | None => None
  | Some hit =>
    let p_to_hit := p_to_hit_of gl_vol raycaster hit in
    let distance_sq := squaredNorm p_to_hit in
    (* too small distance is calculated as zero distance *)
    if PrimFloat.ltb distance_sq (mm_min surface_distance_sq) then None
    (* check maximal distance *)
    else if PrimFloat.ltb (max_squared_distance gl_vol) distance_sq then None
    else
      (* calculate sign *)
      let sign : float32 := if PrimFloat.ltb 0 (dot p_to_hit dir) then 1 else -1 in
      Some (mulf32 sign (to_float32 (PrimFloat.sqrt distance_sq)))
  end.

(** [calc_distance(gl_volume, raycaster, canvas)]: the raycaster is brought
    up to date first. *)
Definition calc_distance_canvas (gl_vol : GLVolume) (raycaster : RaycastManager) (c : GLCanvas3D)
  : option float32 * RaycastManager :=
  match get_model_object gl_vol (model_objects c) with
  | None => (None, raycaster)
  | Some object =>
    match get_model_instance gl_vol object, get_model_volume gl_vol object with
    | Some instance, Some volume =>
      if is_the_only_one_part object volume then (None, raycaster)
      else
        let cond   := create_condition (volumes object) (mv_id volume) in
        let meshes := create_meshes c cond in
        let raycaster' := actualize raycaster instance cond meshes in
        (calc_distance gl_vol raycaster' cond, raycaster')
    | _, _ => (None, raycaster)
    end
  end.

(** [Vec3d emboss_dir(0., 0., -1.);] *)
Definition emboss_dir : Vec3d := mkVec3 0 0 (-1).

(** The rotation [face_selected_volume_to_camera] picks for a camera
    direction given in the volume's coordinate system.
<<
    if (is_approx(cam_dir_tr, -emboss_dir)) {
        // rotate 180 DEG by y
        vol_rot = Eigen::AngleAxis(M_PI_2, Vec3d(0., 1., 0.));
    } else {
        Vec3d axe = emboss_dir.cross(cam_dir_tr);
        axe.normalize();
        double angle = std::acos(emboss_dir.dot(cam_dir_tr));
        vol_rot      = Eigen::AngleAxis(angle, axe);
    }
>> *)
Definition face_rotation (cam_dir_tr : Vec3d) : Transform3d :=
  if is_approx_vec cam_dir_tr (vopp emboss_dir) then
    AngleAxis M_PI_2 (mkVec3 0 1 0)
  else
    let axe   := normalize (cross emboss_dir cam_dir_tr) in
    let angle := std_acos (dot emboss_dir cam_dir_tr) in
    AngleAxis angle axe.

(** [vol_tr * Translation(-offset) * vol_rot * Translation(offset_inv)] with
    [offset = vol_tr * Zero] and [offset_inv = vol_rot.inverse() * offset]. *)
Definition rotate_keeping_offset (vol_tr vol_rot : Transform3d) : Transform3d :=
  let offset     := tr_apply vol_tr Vec3_Zero in
  let offset_inv := tr_apply (inverse vol_rot) offset in
  tr_mul (tr_mul (tr_mul vol_tr (Translation3 (vopp offset))) vol_rot) (Translation3 offset_inv).

(** [face_selected_volume_to_camera(camera, canvas)] *)
Definition face_selected_volume_to_camera (camera : Camera) (c : GLCanvas3D)
  : result (bool * GLCanvas3D) :=
  let cam_dir := get_dir_forward camera in
  let sel := get_selection c in
  if sel_is_empty sel then Ok (false, c)
  else
    (* camera direction transformed into volume coordinate system *)
    let* to_world := world_matrix_fixed_sel c in
    let cam_dir_tr := normalize (mat_vec (linear (inverse to_world)) cam_dir) in
    (* check wether cam_dir is already used *)
    if is_approx_vec cam_dir_tr emboss_dir then Ok (false, c)
    else
      let* idx := deref (hd_error (get_volume_idxs sel)) in
      let* gl_vol := deref (nth_error (gl_volumes c) idx) in
      let vol_tr  := get_volume_transformation gl_vol in
      let vol_rot := face_rotation cam_dir_tr in
      let res     := rotate_keeping_offset vol_tr vol_rot in
      let gl_vol' := set_volume_transformation gl_vol res in
      let vols'   := update_nth (gl_volumes c) idx (fun _ => gl_vol') in
      let* _ := deref (get_model_volume_in gl_vol' (model_objects c)) in
      Ok (true, with_objects (with_volumes c vols')
                  (set_model_volume_transformation gl_vol' res (model_objects c))).

Definition has_value {A : Type} (o : option A) : bool :=
  match o with Some _ => true | None => false end.

(** [volume_tr * fix->inverse()] when the volume has an emboss shape with a
    .3mf fix, [volume_tr] otherwise. *)
Definition unbake_fix (volume : ModelVolume) (volume_tr : Transform3d) : Transform3d :=
  match emboss_shape volume with
  | Some es =>
    match fix_3mf_tr es with
    | Some fix_tr => tr_mul volume_tr (inverse fix_tr)
    | None => volume_tr
    end
  | None => volume_tr
  end.

(** [tr] times the fix itself, under the same condition. *)
Definition bake_fix (volume : ModelVolume) (tr : Transform3d) : Transform3d :=
  match emboss_shape volume with
  | Some es =>
    match fix_3mf_tr es with
    | Some fix_tr => tr_mul tr fix_tr
    | None => tr
    end
  | None => tr
  end.

(** [start_dragging], from the raycaster's initialisation on: everything
    after the checks that can decline the drag. *)
Definition begin_session
    (mouse_pos : Vec2d) (camera : Camera) (st : State) (up_limit : option double)
    (gl_volume_ptr : nat) (gl_vol : GLVolume)
    (object : ModelObject) (instance : ModelInstance) (volume : ModelVolume)
  : result (bool * State) :=
  let c := canvas st in
  let objects := model_objects c in
  let cond    := create_condition (volumes object) (mv_id volume) in
  let meshes  := create_meshes c cond in
  (* initialize raycasters *)
  let rm := actualize (raycast_manager st) instance cond meshes in
  (* world_matrix_fixed() without sla shift *)
  let to_world := world_matrix_fixed gl_vol objects in
  (* zero point of volume in world coordinate system *)
  let volume_center := translation to_world in
  (* screen coordinate of volume center *)
  let coor := project camera volume_center in
  let m_offset := sub2d (cast_double coor) mouse_pos in
  let m_offset_without_sla_shift :=
    if negb (is_approx (get_sla_shift_z gl_vol) 0 EPSILON) then
      let to_world_without_sla_move :=
        bake_fix volume (tr_mul (mi_matrix instance) (mv_matrix volume)) in
      let volume_center := translation to_world_without_sla_move in
      let coor := project camera volume_center in
      sub2d (cast_double coor) mouse_pos
    else m_offset in
  (* fix baked transformation from .3mf store process *)
  let volume_tr := unbake_fix volume (get_volume_transformation gl_vol) in
  let instance_tr     := mi_matrix instance in
  let instance_tr_inv := inverse instance_tr in
  let world_tr        := tr_mul instance_tr volume_tr in
  let s_angle :=
    match up_limit with
    | Some up => calc_up world_tr up
    | None => None
    end in
  (* [volume->emboss_shape->projection.use_surface] *)
  let* es := deref (emboss_shape volume) in
  let s_distance :=
    if negb (use_surface (projection es)) then calc_distance gl_vol rm cond else None in
  let sd := mkSurfaceDrag m_offset world_tr instance_tr_inv gl_volume_ptr cond
                          s_angle s_distance true m_offset_without_sla_shift in
  (* disable moving with object by mouse *)
  Ok (true, mkState (Some sd) (enable_picking false (enable_moving false c)) rm).

(** [start_dragging] *)
Definition start_dragging
    (mouse_pos : Vec2d) (camera : Camera) (st : State) (up_limit : option double)
  : result (bool * State) :=
  let c := canvas st in
  (* selected volume *)
  match get_selected_gl_volume (get_selection c) (gl_volumes c) with
  | None => Ok (false, st)
  | Some gl_volume_ptr =>
    let* gl_vol := deref (nth_error (gl_volumes c) gl_volume_ptr) in
    (* is selected volume closest hovered? *)
    let hovered_idx := get_first_hover_volume_idx c in
    if (hovered_idx <? 0)%Z then Ok (false, st)
    else
      let hovered_idx_ := Z.to_nat hovered_idx in
      if (List.length (gl_volumes c) <=? hovered_idx_)%nat
         || negb (hovered_idx_ =? gl_volume_ptr)%nat then Ok (false, st)
      else
        match get_model_object gl_vol (model_objects c) with
        | None => Ok (false, st)
        | Some object =>
          match get_model_instance gl_vol object, get_model_volume gl_vol object with
          | Some instance, Some volume =>
            (* allowed drag&drop by canvas for object *)
            if is_the_only_one_part object volume then Ok (false, st)
            else begin_session mouse_pos camera st up_limit gl_volume_ptr gl_vol
                               object instance volume
          | _, _ => Ok (false, st)
          end
        end
  end.

(** The session's world transformation once [dragging] has reset the skew of
    its Z axis.  [auto world_linear = surface_drag->world.linear();] is a
    writable view of the session's matrix, so the assignment to
    [world_linear.col(2)] changes the session. *)
Definition world_without_skew (sd : SurfaceDrag) : Transform3d :=
  set_linear (world sd) (reset_skew (linear (world sd))).

(** [dragging], from [text_z_world] to [volume_new.linear() = ...]: the new
    volume transformation the hit asks for, before it is checked. *)
Definition solve_volume_new (sd : SurfaceDrag) (hit : Hit) (up_limit : option double)
  : Transform3d :=
  let w := world_without_skew sd in
  let text_z_world := col2 (linear w) in
  let z_rotation := FromTwoVectors text_z_world (normal hit) in
  let world_new := rot_mul z_rotation w in
  (* Fix direction of up vector to zero initial rotation *)
  let world_new :=
    match up_limit with
    | Some up =>
      let z_world   := normalize (col2 (linear world_new)) in
      let wanted_up := suggest_up z_world up in
      let y_world   := col1 (linear world_new) in
      let y_rotation := FromTwoVectors y_world wanted_up in
      rot_mul y_rotation world_new
    | None => world_new
    end in
  let world_new_linear := linear world_new in
  (* Edit position from right *)
  let volume_new := Translation3 (tr_apply (instance_inv sd) (position hit)) in
  set_linear volume_new (mat_mul (linear (instance_inv sd)) world_new_linear).

(** [dragging], the block "fix baked transformation from .3mf store
    process": for a volume with an emboss shape, the fix is baked in again
    and the start angle and distance are applied. *)
Definition finish_volume_new (sd : SurfaceDrag) (volume : option ModelVolume)
    (volume_new : Transform3d) : Transform3d :=
  match volume with
  | Some v =>
    match emboss_shape v with
    | Some _ =>
      apply_transformation (start_angle sd) (start_distance sd) (bake_fix v volume_new)
    | None => volume_new
    end
  | None => volume_new
  end.

(** [dragging], the loop "Update transformation for all instances". *)
Definition update_all_instances (dragged : GLVolume) (volume_new : Transform3d)
    (vols : list GLVolume) : list GLVolume :=
  map (fun vol =>
         if negb (object_idx vol =? object_idx dragged)%Z
            || negb (volume_idx vol =? volume_idx dragged)%Z
         then vol
         else set_volume_transformation vol volume_new)
      vols.

(** [dragging] *)
Definition dragging
    (mouse_pos : Vec2d) (camera : Camera) (st : State) (up_limit : option double)
  : result (bool * State) :=
  let* sd := deref (surface_drag st) in
  let c := canvas st in
  let offseted_mouse := add2d mouse_pos (mouse_offset_without_sla_shift sd) in
  let hit := ray_from_camera (raycast_manager st) offseted_mouse camera (condition sd) in
  let sd := set_exist_hit sd (has_value hit) in
  match hit with
  | None =>
    (* cross hair need redraw *)
    Ok (true, mkState (Some sd) (set_as_dirty c) (raycast_manager st))
  | Some h =>
    let volume_new := solve_volume_new sd h up_limit in
    let sd := set_world sd (world_without_skew sd) in
    (* Check that transformation matrix is valid transformation *)
    if differs_from_itself (coeff00 (linear volume_new)) then
      Ok (true, mkState (Some sd) c (raycast_manager st))
    else
      let* dragged := deref (nth_error (gl_volumes c) (gl_volume sd)) in
      let volume := get_model_volume_in dragged (model_objects c) in
      let volume_new := finish_volume_new sd volume volume_new in
      (* Update transformation for all instances *)
      let c := with_volumes c (update_all_instances dragged volume_new (gl_volumes c)) in
      Ok (true, mkState (Some sd) (set_as_dirty c) (raycast_manager st))
  end.

(** [on_mouse_surface_drag] *)
Definition on_mouse_surface_drag
    (mouse_event : wxMouseEvent) (camera : Camera) (st : State) (up_limit : option double)
  : result (bool * State) :=
  (* Fix when leave window during dragging *)
  (* Fix when click right button *)
  if has_value (surface_drag st) && negb (Dragging mouse_event) then
    (* write transformation from UI into model *)
    let c := do_move "Move over surface" (canvas st) in
    (* allow moving with object again *)
    let c := enable_moving true c in
    let c := enable_picking true c in
    (* only left up is correct, otherwise it is fix state and return false *)
    Ok (LeftUp mouse_event, mkState None c (raycast_manager st))
  else if Moving mouse_event then Ok (false, st)
  else if LeftDown mouse_event then
    start_dragging (mouse_position mouse_event) camera st up_limit
  (* Dragging starts out of window *)
  else if negb (has_value (surface_drag st)) then Ok (false, st)
  else if Dragging mouse_event then
    dragging (mouse_position mouse_event) camera st up_limit
  else Ok (false, st).

End SurfaceDrag.

Arguments Hit TrKey : clear implicits.
Arguments SurfaceDrag AllowVolumes : clear implicits.
Arguments State RaycastManager AllowVolumes : clear implicits.
Arguments Collaborators Camera RaycastManager AllowVolumes Meshes TrKey : clear implicits.

(* ------------------------------------------------------------------------- *)
(** ** A scene to run the functions on

    One implementation of the collaborators, small enough to evaluate: an
    orthographic camera given by its forward direction, and a raycast
    service that answers every query with the hit it was loaded with and
    counts how often it was brought up to date. *)

Module Ex.

Definition Camera : Type := Vec3d.
Definition AllowVolumes : Type := Z.
Definition Meshes : Type := unit.
Definition TrKey : Type := unit.

Record RaycastManager : Type := mkRaycastManager {
  loaded_hit : option (Hit TrKey);
  actualized : nat
}.

(** libm at the arguments the examples reach: pi/2 and pi, 0 and 1, and the
    squares of 4 and of 1, which are exact. *)
Definition cos_at (x : double) : double :=
  if x =? M_PI_2 then 0x1.1a62633145c07p-54 else if x =? M_PI then -1 else 1.
Definition sin_at (x : double) : double :=
  if x =? M_PI_2 then 1 else if x =? M_PI then 0x1.1a62633145c07p-53 else 0.
Definition acos_at (x : double) : double :=
  if x =? 1 then 0 else if x =? -1 then M_PI else M_PI_2.
Definition pow_at (x y : double) : double :=
  if y =? 2 then x * x else 1.

(** The cofactor_inverse of an affine transform, by cofactors. *)
Definition cofactor_inverse (t : Transform3d) : Transform3d :=
  let a := col0 (linear t) in
  let b := col1 (linear t) in
  let c := col2 (linear t) in
  let det := dot a (cross b c) in
  let r0 := vdiv (cross b c) det in
  let r1 := vdiv (cross c a) det in
  let r2 := vdiv (cross a b) det in
  let inv := mkMatrix3 (mkVec3 (vx r0) (vx r1) (vx r2))
                       (mkVec3 (vy r0) (vy r1) (vy r2))
                       (mkVec3 (vz r0) (vz r1) (vz r2)) in
  mkTransform3 inv (vopp (mat_vec inv (translation t))).

(** The shortest-arc rotation from [a] to [b], away from the antiparallel
    case: the quaternion (w, vec) with [vec = (v0 x v1) / s],
    [w = s / 2], [s = sqrt(2 (1 + v0 . v1))], as a matrix. *)
Definition shortest_arc (a b : Vec3d) : Matrix3d :=
  let v0 := normalize a in
  let v1 := normalize b in
  let c  := dot v1 v0 in
  let s  := PrimFloat.sqrt ((1 + c) * 2) in
  let q  := vscale (cross v0 v1) (1 / s) in
  let w  := s * 0x1p-1 in
  let tx := 2 * vx q in let ty := 2 * vy q in let tz := 2 * vz q in
  let twx := tx * w in let twy := ty * w in let twz := tz * w in
  let txx := tx * vx q in let txy := ty * vx q in let txz := tz * vx q in
  let tyy := ty * vy q in let tyz := tz * vy q in let tzz := tz * vz q in
  mkMatrix3 (mkVec3 (1 - (tyy + tzz)) (txy + twz) (txz - twy))
            (mkVec3 (txy - twz) (1 - (txx + tzz)) (tyz + twx))
            (mkVec3 (txz + twy) (tyz - twx) (1 - (txx + tyy))).

Definition epsilon : double := 0x1.a36e2eb1c432dp-14.

Definition approx (value test_value precision : double) : bool :=
  PrimFloat.abs (value - test_value) <? precision.

Definition approx_vec (a b : Vec3d) : bool :=
  approx (vx a) (vx b) epsilon && approx (vy a) (vy b) epsilon
  && approx (vz a) (vz b) epsilon.

Definition z_base (tr : Transform3d) : Vec3d := col2 (linear tr).

(** No other volume in the object. *)
Definition one_volume_only (object : ModelObject) (volume : ModelVolume) : bool :=
  (List.length (volumes object) =? 1)%nat.

Definition single_selected (sel : Selection) (vols : list GLVolume) : option nat :=
  match get_volume_idxs sel with
  | [i] => if (i <? List.length vols)%nat then Some i else None
  | _ => None
  end.

Definition instance_times_volume (v : GLVolume) : Transform3d :=
  let m := tr_mul (get_instance_transformation v) (get_volume_transformation v) in
  mkTransform3 (linear m)
    (mkVec3 (vx (translation m)) (vy (translation m)) (vz (translation m) + get_sla_shift_z v)).

#[global] Instance collaborators
  : Collaborators Camera RaycastManager AllowVolumes Meshes TrKey := {|
  std_cos := cos_at;
  std_sin := sin_at;
  std_acos := acos_at;
  std_pow := pow_at;
  inverse := cofactor_inverse;
  FromTwoVectors := shortest_arc;
  EPSILON := epsilon;
  is_approx := approx;
  is_approx_vec := approx_vec;
  get_z_base := z_base;
  is_the_only_one_part := one_volume_only;
  calc_up := fun _ _ => None;
  suggest_up := fun _ _ => Vec3_UnitY;
  apply_transformation := fun _ _ tr => tr;
  get_selected_gl_volume := single_selected;
  world_matrix := instance_times_volume;
  get_dir_forward := fun cam => cam;
  project := fun _ _ => mkVec2i 0 0;
  create_condition := fun _ id => id;
  create_meshes := fun _ _ => tt;
  actualize := fun rm _ _ _ => mkRaycastManager (loaded_hit rm) (S (actualized rm));
  closest_hit := fun rm _ _ _ => loaded_hit rm;
  get_transformation := fun _ _ => Transform3_Identity;
  ray_from_camera := fun rm _ _ _ => loaded_hit rm
|}.

(** *** The model: one object made of a base part and a text laid on it,
    placed twice on the plate. *)

Definition at_point (x y z : double) : Transform3d := Translation3 (mkVec3 x y z).

Definition base_part : ModelVolume := mkModelVolume 10 Transform3_Identity None.

Definition text_shape : EmbossShape := mkEmbossShape (mkEmbossProjection false) None.

Definition text_part : ModelVolume := mkModelVolume 11 (at_point 0 0 5) (Some text_shape).

Definition object : ModelObject :=
  mkModelObject [base_part; text_part]
                [mkModelInstance Transform3_Identity; mkModelInstance (at_point 100 0 0)].

(** An object that is its only part. *)
Definition lone_object : ModelObject :=
  mkModelObject [base_part] [mkModelInstance Transform3_Identity].

Definition box (dx dy dz : double) : BoundingBoxf3 :=
  mkBoundingBoxf3 Vec3_Zero (mkVec3 dx dy dz).

(** The scene volume of part [v] of object 0 in instance [i]. *)
Definition scene_volume (v i : Z) (volume_tr instance_tr : Transform3d) : GLVolume :=
  mkGLVolume 0 v i volume_tr instance_tr 0 (box 10 5 2).

(** The text of the first instance, 5 above the base. *)
Definition text_volume : GLVolume := scene_volume 1 0 (at_point 0 0 5) Transform3_Identity.

Definition scene_volumes : list GLVolume :=
  [ scene_volume 0 0 Transform3_Identity Transform3_Identity;
    text_volume;
    scene_volume 0 1 Transform3_Identity (at_point 100 0 0);
    scene_volume 1 1 (at_point 0 0 5) (at_point 100 0 0) ].

(** The canvas with scene volume [i] selected and hovered. *)
Definition canvas_with (i : nat) : GLCanvas3D :=
  mkGLCanvas3D scene_volumes (mkSelection [i]) [object] (Z.of_nat i) true true false [].

(** The text of the first instance is selected and hovered. *)
Definition text_canvas : GLCanvas3D := canvas_with 1.

(** The base part is selected and hovered. *)
Definition base_canvas : GLCanvas3D := canvas_with 0.

(** The lone object's part is selected and hovered. *)
Definition lone_canvas : GLCanvas3D :=
  mkGLCanvas3D [scene_volume 0 0 Transform3_Identity Transform3_Identity]
               (mkSelection [0%nat]) [lone_object] 0 true true false [].

Definition looking_down : Camera := mkVec3 0 0 (-1).
Definition looking_up   : Camera := mkVec3 0 0 1.

(** *** The raycast service *)

Definition hit_at (x y z : double) : Hit TrKey := mkHit (mkVec3 x y z) Vec3_UnitZ tt 25.

(** The ray meets the plate at (3, 4, 0), where the normal points up. *)
Definition plate : RaycastManager := mkRaycastManager (Some (hit_at 3 4 0)) 0.

(** The surface lies 2 below the text, straight along its forward axis. *)
Definition shelf : RaycastManager := mkRaycastManager (Some (hit_at 0 0 3)) 0.

(** The ray leaves the plate. *)
Definition off_plate : RaycastManager := mkRaycastManager None 0.

(** The service reports a hit as far along X as 2^1023, a finite double. *)
Definition far_plate : RaycastManager := mkRaycastManager (Some (hit_at 0x1p+1023 0 0)) 0.

(** A thin part at the origin, of depth one half, and a surface below it at
    the depth [0x1.94c583ada5b52p+1], whose square is the double next below
    10; and a service that reports a hit at no number. *)
Definition thin_volume : GLVolume :=
  mkGLVolume 0 1 0 Transform3_Identity Transform3_Identity 0 (box 10 5 0x1p-1).

Definition below_thin : RaycastManager :=
  mkRaycastManager (Some (hit_at 0 0 (-0x1.94c583ada5b52p+1))) 0.


(** *** States *)

Definition idle (c : GLCanvas3D) (rm : RaycastManager) : State RaycastManager AllowVolumes :=
  mkState None c rm.

(** The session of a drag of the text of the first instance. *)
Definition text_session : SurfaceDrag AllowVolumes :=
  mkSurfaceDrag (mkVec2d 0 0) (at_point 0 0 5) Transform3_Identity 1%nat 11%Z None None true
                (mkVec2d 0 0).

(** The session of a drag of the text when the instance is scaled by one
    half: the world transformation carries the scale, the inverse of the
    instance transformation doubles. *)
Definition scaled (k : double) : Matrix3d :=
  mkMatrix3 (mkVec3 k 0 0) (mkVec3 0 k 0) (mkVec3 0 0 k).

Definition half_session : SurfaceDrag AllowVolumes :=
  mkSurfaceDrag (mkVec2d 0 0)
                (mkTransform3 (scaled 0x1p-1) (mkVec3 0 0 0x1.4p+1))
                (mkTransform3 (scaled 2) Vec3_Zero)
                1%nat 11%Z None None true (mkVec2d 0 0).

(** A session whose world transformation has collapsed: its X and Y axes
    coincide. *)
Definition flat_session : SurfaceDrag AllowVolumes :=
  mkSurfaceDrag (mkVec2d 0 0)
                (mkTransform3 (mkMatrix3 Vec3_UnitX Vec3_UnitX Vec3_UnitZ) Vec3_Zero)
                Transform3_Identity 1%nat 11%Z None None true (mkVec2d 0 0).

Definition in_drag (sd : SurfaceDrag AllowVolumes) (rm : RaycastManager)
  : State RaycastManager AllowVolumes :=
  mkState (Some sd) (enable_picking false (enable_moving false text_canvas)) rm.

(** *** Pointer events *)

Definition left_down  : wxMouseEvent := mkMouseEvent wxEVT_LEFT_DOWN true false false false false 0 0.
Definition left_drag  : wxMouseEvent := mkMouseEvent wxEVT_MOTION true false false false false 3 4.
Definition left_up    : wxMouseEvent := mkMouseEvent wxEVT_LEFT_UP false false false false false 3 4.
Definition right_up   : wxMouseEvent := mkMouseEvent wxEVT_RIGHT_UP true false false false false 3 4.
Definition leave      : wxMouseEvent := mkMouseEvent wxEVT_LEAVE_WINDOW true false false false false 3 4.

(** *** Linear maps

    A scale of one tenth along Y ([0x1.999999999999ap-4] is the double the
    literal [0.1] denotes), and, in exact arithmetic, a Z axis that leans
    over the XY plane. *)
Definition tenth_along_y : Matrix3d :=
  mkMatrix3 (mkVec3 1 0 0) (mkVec3 0 0x1.999999999999ap-4 0) (mkVec3 0 0 1).

Definition leaning : Matrix3 R :=
  mkMatrix3 (mkVec3 1%R 0%R 0%R) (mkVec3 0%R 1%R 0%R) (mkVec3 1%R 1%R 1%R).

End Ex.

(* ------------------------------------------------------------------------- *)
(** * The offset onto the surface, and the arithmetic of two steps

    [calc_surface_offset], and the two steps of [SurfaceDrag.cpp] whose
    arithmetic is also read in exact scalars. *)

Section Offsets.
Context {T : Type} {ST : Scalar T}.

(** [face_selected_volume_to_camera], the lines that turn the volume, with
    the inverse Eigen computes as a parameter:
<<
    Vec3d       offset     = vol_tr * Vec3d::Zero();
    Vec3d       offset_inv = vol_rot.inverse() * offset;
    Transform3d res        = vol_tr * Eigen::Translation<double, 3>(-offset) * vol_rot * Eigen::Translation<double, 3>(offset_inv);
>> *)
Definition rotate_keeping_offset_with (inv : Transform3 T -> Transform3 T)
    (vol_tr vol_rot : Transform3 T) : Transform3 T :=
  let offset     := tr_apply vol_tr Vec3_Zero in
  let offset_inv := tr_apply (inv vol_rot) offset in
  tr_mul (tr_mul (tr_mul vol_tr (Translation3 (vopp offset))) vol_rot) (Translation3 offset_inv).

(** [calc_surface_offset], the lines both of its branches end with:
<<
    Vec3d offset_world = hit_world - point; // vector in world
    Vec3d offset_volume = to_world.inverse().linear() * offset_world;
>>
    with [point = to_world.translation()]. *)
Definition offset_in_volume (inv : Transform3 T -> Transform3 T)
    (to_world : Transform3 T) (hit_world : Vec3 T) : Vec3 T :=
  let point := translation to_world in
  let offset_world := vsub hit_world point in
  mat_vec (linear (inv to_world)) offset_world.

End Offsets.

(** Modelled from the spec: [get_model_instance(gl_volume, objects)]
    (Selection.cpp), through the object. *)
Definition get_model_instance_in (gl_volume : GLVolume) (objects : list ModelObject)
  : option ModelInstance :=
  match get_model_object gl_volume objects with
  | Some object => get_model_instance gl_volume object
  | None => None
  end.

Section SurfaceOffset.

Context {Camera RaycastManager AllowVolumes Meshes TrKey : Type}.
Context {collaborators : Collaborators Camera RaycastManager AllowVolumes Meshes TrKey}.

(** [RaycastManager::ClosePoint]: the closest point of a mesh, in the space
    of that mesh, the key of the transformation into the world, and the
    squared distance. *)
Record ClosePoint : Type := mkClosePoint {
  cp_tr_key : TrKey;
  point     : Vec3d;
  cp_squared_distance : double
}.

(** The raycast service as [calc_surface_offset] calls it: with the
    condition [RaycastManager::SkipVolume] and without meshes, and with the
    query for the closest point. *)
Class SkipRaycast (SkipVolume : Type) : Type := {
  (* [RaycastManager::SkipVolume(id)] *)
  skip_volume : Z -> SkipVolume;
  (* [raycast_manager.actualize(instance, &cond)] *)
  actualize_skip : RaycastManager -> ModelInstance -> SkipVolume -> RaycastManager;
  (* [raycast_manager.closest_hit(point, dir, &cond)] *)
  closest_hit_skip : RaycastManager -> Vec3d -> Vec3d -> SkipVolume -> option (Hit TrKey);
  (* [raycast_manager.closest(point)] *)
  closest : RaycastManager -> Vec3d -> option ClosePoint
}.

Context {SkipVolume : Type} {skip_raycast : SkipRaycast SkipVolume}.

(** [calc_surface_offset]: the offset, and the raycast manager as the call
    leaves it.  The selection's model is the canvas's. *)
Definition calc_surface_offset (c : GLCanvas3D) (raycast_manager : RaycastManager)
  : result (option Vec3d * RaycastManager) :=
  match get_selected_gl_volume (get_selection c) (gl_volumes c) with
  | None => Ok (None, raycast_manager)
  | Some gl_volume_ptr =>
    let* gl_volume := deref (nth_error (gl_volumes c) gl_volume_ptr) in
    let objects := model_objects c in
    match get_model_volume_in gl_volume objects with
    | None => Ok (None, raycast_manager)
    | Some volume =>
      match get_model_instance_in gl_volume objects with
      | None => Ok (None, raycast_manager)
      | Some instance =>
        (* Move object on surface *)
        let cond := skip_volume (mv_id volume) in
        let raycast_manager := actualize_skip raycast_manager instance cond in
        let to_world := world_matrix_fixed gl_volume objects in
        let point_ := translation to_world in
        let dir := vopp (get_z_base to_world) in
        (* ray in direction of text projection(from volume zero to z-dir) *)
        match closest_hit_skip raycast_manager point_ dir cond with
        | None =>
          (* Try to find closest point when no hit object in emboss direction *)
          match closest raycast_manager point_ with
          | None => Ok (None, raycast_manager)
          | Some close_point =>
            (* It is no neccesary to move with origin by very small value *)
            if PrimFloat.ltb (cp_squared_distance close_point) EPSILON then
              Ok (None, raycast_manager)
            else
              let hit_tr := get_transformation raycast_manager (cp_tr_key close_point) in
              let hit_world := tr_apply hit_tr (point close_point) in
              Ok (Some (offset_in_volume inverse to_world hit_world), raycast_manager)
          end
        | Some hit =>
          (* It is no neccesary to move with origin by very small value *)
          if PrimFloat.ltb (squared_distance hit) EPSILON then Ok (None, raycast_manager)
          else
            let hit_tr := get_transformation raycast_manager (tr_key hit) in
            let hit_world := tr_apply hit_tr (position hit) in
            Ok (Some (offset_in_volume inverse to_world hit_world), raycast_manager)
        end
      end
    end
  end.

End SurfaceOffset.

Arguments ClosePoint TrKey : clear implicits.
Arguments SkipRaycast RaycastManager TrKey SkipVolume : clear implicits.

(** ** The raycast service of the scene, with the closest point *)

Module ExOffset.

(** The closest point of the base lies straight below the point asked
    for, on the plane z = 0. *)
#[global] Instance skip_raycast : SkipRaycast Ex.RaycastManager Ex.TrKey Z := {|
  skip_volume := fun id => id;
  actualize_skip := fun rm _ _ => Ex.mkRaycastManager (Ex.loaded_hit rm) (S (Ex.actualized rm));
  closest_hit_skip := fun rm _ _ _ => Ex.loaded_hit rm;
  closest := fun _ p =>
    Some (mkClosePoint tt (mkVec3 (vx p) (vy p) 0%float) (vz p * vz p)%float)
|}.

(** The inverse of an affine transform by cofactors, for any scalar. *)
Definition cofactor_inverse_of {T : Type} {ST : Scalar T} (t : Transform3 T) : Transform3 T :=
  let a := col0 (linear t) in
  let b := col1 (linear t) in
  let c := col2 (linear t) in
  let det := dot a (cross b c) in
  let r0 := vdiv (cross b c) det in
  let r1 := vdiv (cross c a) det in
  let r2 := vdiv (cross a b) det in
  let inv := mkMatrix3 (mkVec3 (vx r0) (vx r1) (vx r2))
                       (mkVec3 (vy r0) (vy r1) (vy r2))
                       (mkVec3 (vz r0) (vz r1) (vz r2)) in
  mkTransform3 inv (vopp (mat_vec inv (translation t))).

(** In exact arithmetic: a quarter turn about Y, and a placement at
    (1, 2, 3) that doubles lengths. *)
Definition quarter_about_y : Transform3 R :=
  mkTransform3 (mkMatrix3 (mkVec3 0%R 0%R (-1)%R) (mkVec3 0%R 1%R 0%R) (mkVec3 1%R 0%R 0%R))
               (mkVec3 0%R 0%R 0%R).

Definition doubled_at_1_2_3 : Transform3 R :=
  mkTransform3 (mkMatrix3 (mkVec3 2%R 0%R 0%R) (mkVec3 0%R 2%R 0%R) (mkVec3 0%R 0%R 2%R))
               (mkVec3 1%R 2%R 3%R).

End ExOffset.

(* ------------------------------------------------------------------------- *)
(** * The download of one file: [src/downloader/FileGet.cpp]

    The functions of the anonymous namespace and the completion handler of
    [FileGet::priv::get_perform].  libcurl, the HTTP transfer and the file
    system are collaborators; the thread that runs the transfer is not
    modelled, and the assertions of [get_perform] are compiled out. *)

From Stdlib Require Import Ascii DecimalString DecimalN FinFun.

Module Downloader.

Local Open Scope Z_scope.

(** [std::string]: a sequence of bytes. *)
Definition std_string : Type := list ascii.

(** [size_t] arithmetic: 64 bits, wrapping. *)
Definition size_t (z : Z) : Z := z mod 2 ^ 64.

(** [std::string::npos] *)
Definition npos : Z := 2 ^ 64 - 1.

(** [s.size()] *)
Definition size (s : std_string) : Z := Z.of_nat (List.length s).

(** [std::string::max_size()]: no string is longer. *)
Definition max_size : Z := 2 ^ 63 - 1.

(** [s.find_last_of(c)] for a single character: the last index that holds
    [c], scanning from index [i] with [found] the last one seen so far. *)
Fixpoint find_last_from (c : ascii) (s : std_string) (i found : Z) : Z :=
  match s with
  | [] => found
  | a :: s' => find_last_from c s' (i + 1) (if Ascii.eqb a c then i else found)
  end.

Definition find_last_of (s : std_string) (c : ascii) : Z := find_last_from c s 0 npos.

(** [s.substr(pos, count)]: nothing when it throws [std::out_of_range]
    ([pos > size()]); the count is cut at the end of the string. *)
Definition substr (s : std_string) (pos count : Z) : option std_string :=
  if size s <? pos then None
  else Some (firstn (Z.to_nat (Z.min count (size s - pos))) (skipn (Z.to_nat pos) s)).

(** [filename_from_url]
<<
    size_t slash = url.find_last_of("/");
    if (slash == std::string::npos && slash != url.size()-1)
        return std::string();
    return url.substr(slash + 1, url.size() - slash + 1);
>> *)
Definition filename_from_url (url : std_string) : option std_string :=
  let slash := find_last_of url "/"%char in
  if (slash =? npos) && negb (slash =? size_t (size url - 1)) then Some []
  else substr url (size_t (slash + 1)) (size_t (size_t (size url - slash) + 1)).

(** [std::string] built from a C string: the bytes up to the first NUL. *)
Fixpoint string_of_c_str (buffer : list ascii) : std_string :=
  match buffer with
  | [] => []
  | a :: rest => if Ascii.eqb a Ascii.zero then [] else a :: string_of_c_str rest
  end.

(** libcurl, as [escape_url] uses it: [curl_easy_init] may return null, and
    [curl_easy_unescape] returns the decoded bytes (a buffer that ends with
    a NUL the list leaves out) or null. *)
Class Curl : Type := {
  CURL : Type;
  curl_easy_init : option CURL;
  curl_easy_unescape : CURL -> std_string -> Z -> option (list ascii)
}.

(** [escape_url]: the length libcurl reports is not read. *)
Definition escape_url {curl : Curl} (unescaped : std_string) : std_string :=
  match curl_easy_init with
  | Some handle =>
    match curl_easy_unescape handle unescaped (size unescaped) with
    | Some decoded => string_of_c_str decoded
    | None => []
    end
  | None => []
  end.

(** [std::to_string(version)] for an unsigned number: its decimal digits. *)
Definition to_string (v : Z) : std_string :=
  list_ascii_of_string (NilEmpty.string_of_uint (N.to_uint (Z.to_N v))).

(** The file system and the process, as [get_perform] sees them: paths with
    [operator/] and [string()], [boost::filesystem::extension] and
    [boost::filesystem::exists], the process id, and the writing of the body
    to the temporary file followed by its renaming, which succeeds or
    throws.  [exists_] is the answer of [boost::filesystem::exists] on a
    folder that no one else writes to during the call: a test that throws
    (the loop is outside the [try]) and the files other downloads create
    meanwhile are not part of the embedding. *)
Class FileSystem : Type := {
  path : Type;
  path_append : path -> std_string -> path;
  path_string : path -> std_string;
  extension : path -> std_string;
  exists_ : path -> bool;
  get_current_pid : Z;
  write_and_rename : path -> path -> std_string -> bool
}.

(** The name the loop of the completion handler tries at a version: the
    file name itself at version 0, the file name followed by the version in
    parentheses after that. *)
Definition candidate (just_filename : std_string) (version : Z) : std_string :=
  if version =? 0 then just_filename
  else just_filename ++ "("%char :: to_string version ++ [")"%char].

(** The completion handler, the loop that looks for a file name that is not
    taken:
<<
    size_t version = 0;
    while (boost::filesystem::exists(m_dest_folder / (final_filename + extension)))
    {
        ++version;
        final_filename = just_filename + "("+std::to_string(version)+")";
    }
>>
    [fuel] bounds the number of times the condition is tested. *)
Fixpoint free_filename {fs : FileSystem} (fuel : nat) (m_dest_folder : path)
    (just_filename ext : std_string) (version : Z) (final_filename : std_string)
  : option (Z * std_string) :=
  match fuel with
  | O => None
  | S fuel' =>
    if exists_ (path_append m_dest_folder (final_filename ++ ext)) then
      let version := size_t (version + 1) in
      free_filename fuel' m_dest_folder just_filename ext version
                    (just_filename ++ "("%char :: to_string version ++ [")"%char])
    else Some (version, final_filename)
  end.

(** The events [get_perform] queues: the kind, the string and the download
    id. *)
Inductive event_kind : Type := EVT_FILE_COMPLETE | EVT_FILE_ERROR | EVT_FILE_PROGRESS.

Record wxCommandEvent : Type := mkCommandEvent {
  evt_kind : event_kind;
  GetString : std_string;
  GetInt : Z
}.

(** [s.substr(0, count)], which never throws. *)
Definition prefix_of (s : std_string) (count : Z) : std_string :=
  firstn (Z.to_nat (Z.min count (size s))) s.

(** [get_perform], the completion handler: the new [m_filename] and the
    event queued; nothing when [fuel] is too small for the loop. *)
Definition on_complete {fs : FileSystem} (fuel : nat) (m_id : Z) (m_dest_folder : path)
    (m_filename body : std_string) : option (std_string * wxCommandEvent) :=
  let dest_path := path_append m_dest_folder m_filename in
  let ext := extension dest_path in
  let just_filename := prefix_of m_filename (size_t (size m_filename - size ext)) in
  match free_filename fuel m_dest_folder just_filename ext 0 just_filename with
  | None => None
  | Some (_, final_filename) =>
    let m_filename := final_filename ++ ext in
    let tmp_path :=
      path_append m_dest_folder
        (m_filename ++ "."%char :: to_string get_current_pid
                    ++ list_ascii_of_string ".download") in
    let dest_path := path_append m_dest_folder m_filename in
    if write_and_rename tmp_path dest_path body then
      Some (m_filename, mkCommandEvent EVT_FILE_COMPLETE (path_string dest_path) m_id)
    else
      Some (m_filename,
            mkCommandEvent EVT_FILE_ERROR
                           (list_ascii_of_string "Failed to write and move.") m_id)
  end.

(** [get_perform], its first lines: the file name the download is saved
    under, nothing when [filename_from_url] throws.
<<
    m_url = escape_url(m_url);
    m_filename = filename_from_url(m_url);
>> *)
Definition filename_of_download {curl : Curl} (m_url : std_string) : option std_string :=
  filename_from_url (escape_url m_url).

End Downloader.

(** ** A folder and a decoder to run the download on *)

Module ExDownload.

Import Downloader.
Local Open Scope Z_scope.

Definition str (s : string) : std_string := list_ascii_of_string s.

(** The value of a hexadecimal digit. *)
Definition hex_value (c : ascii) : option N :=
  let n := N_of_ascii c in
  if (48 <=? n)%N && (n <=? 57)%N then Some (n - 48)%N
  else if (65 <=? n)%N && (n <=? 70)%N then Some (n - 55)%N
  else if (97 <=? n)%N && (n <=? 102)%N then Some (n - 87)%N
  else None.

(** Percent-decoding: [%XX] is the byte with the hexadecimal value XX. *)
Fixpoint percent_decode (s : std_string) : list ascii :=
  match s with
  | [] => []
  | a :: rest =>
    match rest with
    | h :: l :: rest' =>
      match Ascii.eqb a "%"%char, hex_value h, hex_value l with
      | true, Some x, Some y => ascii_of_N (16 * x + y) :: percent_decode rest'
      | _, _, _ => a :: percent_decode rest
      end
    | _ => a :: percent_decode rest
    end
  end.

#[global] Instance curl : Curl := {|
  CURL := unit;
  curl_easy_init := Some tt;
  curl_easy_unescape := fun _ s _ => Some (percent_decode s)
|}.

(** A folder given by its path, in which the files of a list exist. *)
Definition in_folder (files : list std_string) : FileSystem := {|
  path := std_string;
  path_append := fun folder name => folder ++ "/"%char :: name;
  path_string := fun p => p;
  extension := fun p => match filename_from_url p with
                        | Some name =>
                          let dot := find_last_of name "."%char in
                          if dot =? npos then [] else skipn (Z.to_nat dot) name
                        | None => []
                        end;
  exists_ := fun p => if in_dec (list_eq_dec ascii_dec) p files then true else false;
  get_current_pid := 4242;
  write_and_rename := fun _ _ _ => true
|}.

Definition downloads : std_string := str "/home/user/Downloads".

(** The folder holds [model.3mf] and [model(1).3mf]. *)
Definition taken : list std_string :=
  [ str "/home/user/Downloads/model.3mf"; str "/home/user/Downloads/model(1).3mf" ].

End ExDownload.

(* ------------------------------------------------------------------------- *)
(** * Properties *)

(** ** Pointer events *)

Lemma Dragging_not_Moving (e : wxMouseEvent) : Dragging e = true -> Moving e = false.
Proof.
  unfold Dragging, Moving.
  destruct (is_motion (GetEventType e)), (AnyButtonIsDown e); simpl; congruence.
Qed.

Lemma Dragging_not_LeftDown (e : wxMouseEvent) : Dragging e = true -> LeftDown e = false.
Proof.
  unfold Dragging, LeftDown.
  destruct (GetEventType e); simpl; congruence.
Qed.


Lemma LeftDown_not_Moving (e : wxMouseEvent) : LeftDown e = true -> Moving e = false.
Proof.
  unfold Moving, LeftDown.
  destruct (GetEventType e); simpl; congruence.
Qed.

(** ** Options and lists of scene volumes *)

Lemma Some_eq {A : Type} (a b : A) : Some a = Some b -> a = b.
Proof. congruence. Qed.

Lemma Ok_pair_eq {A B : Type} (a a' : A) (b b' : B) :
  Ok (a, b) = Ok (a', b') -> a = a' /\ b = b'.
Proof. intros H; split; congruence. Qed.


Lemma nth_error_in_range {A : Type} (l : list A) (n : nat) (a : A) :
  nth_error l n = Some a -> (List.length l <=? n)%nat = false.
Proof.
  intros H.
  apply Nat.leb_gt.
  apply nth_error_Some.
  congruence.
Qed.

(** ** Facts of binary64 and binary32 arithmetic

    The product with the sign, [1.f] or [-1.f], and the sign of what a
    narrowing to [float] and a square root return. *)
Lemma SFopp_involutive (x : spec_float) : SFopp (SFopp x) = x.
Proof. destruct x as [s | s | | s m e]; cbn; try rewrite Bool.negb_involutive; reflexivity. Qed.

Lemma opp_involutive (x : double) : - - x = x.
Proof.
  apply Prim2SF_inj.
  now rewrite !opp_spec, SFopp_involutive.
Qed.

(** The product of a valid binary64 number with plus or minus one. *)
Lemma SF64mul_unit (b : bool) (x : spec_float) :
  valid_binary x = true ->
  SF64mul (S754_finite b 4503599627370496 (-52)) x = if b then SFopp x else x.
Proof.
  intros Hvalid.
  destruct x as [s | s | | s mx ex];
    try (destruct b; try destruct s; reflexivity).
  cbn [valid_binary] in Hvalid.
  unfold bounded, canonical_mantissa in Hvalid.
  apply andb_prop in Hvalid.
  destruct Hvalid as [Hcanonical Hbounded].
  apply Z.eqb_eq in Hcanonical.
  unfold SF64mul, SFmul, binary_round_aux, shr_fexp.
  assert (Hshift : (fexp prec emax
                         (Zdigits2 (Zpos (4503599627370496 * mx)) + (-52 + ex))
                    - (-52 + ex) = 52)%Z).
  { replace (Zdigits2 (Zpos (4503599627370496 * mx)) + (-52 + ex))%Z
      with (Zpos (digits2_pos mx) + ex)%Z.
    - rewrite Hcanonical; lia.
    - cbn [Pos.mul Zdigits2 digits2_pos].
      rewrite !Pos2Z.inj_succ.
      lia. }
  rewrite Hshift.
  cbn [shr shr_record_of_loc SpecFloat.iter_pos shr_1 Pos.mul orb shr_m shr_r shr_s
       loc_of_shr_record round_nearest_even].
  replace (-52 + ex + 52)%Z with ex by lia.
  cbn [Zdigits2].
  replace (fexp prec emax (Z.pos (digits2_pos mx) + ex) - ex)%Z with 0%Z
    by (rewrite Hcanonical; lia).
  cbn [shr shr_record_of_loc shr_m].
  rewrite Hbounded.
  now destruct b, s.
Qed.

Lemma mul_one_l (m : double) : 1 * m = m.
Proof.
  apply Prim2SF_inj.
  rewrite mul_spec.
  replace (Prim2SF 1) with (S754_finite false 4503599627370496 (-52))
    by (vm_compute; reflexivity).
  apply (SF64mul_unit false), Prim2SF_valid.
Qed.

Lemma mul_minus_one_l (m : double) : -1 * m = - m.
Proof.
  apply Prim2SF_inj.
  rewrite mul_spec, opp_spec.
  replace (Prim2SF (-1)) with (S754_finite true 4503599627370496 (-52))
    by (vm_compute; reflexivity).
  apply (SF64mul_unit true), Prim2SF_valid.
Qed.


(** Rounding to nearest, ties to even, does not look at the sign. *)
Lemma binary_round_aux_opp (p em : Z) (s : bool) (m e : Z) (l : location) :
  binary_round_aux p em (negb s) m e l = SFopp (binary_round_aux p em s m e l).
Proof.
  unfold binary_round_aux.
  destruct (shr_fexp p em m e l) as [mrs' e'].
  destruct (shr_fexp p em _ e' loc_Exact) as [mrs'' e''].
  destruct (shr_m mrs'') as [ | q | q]; try reflexivity.
  now destruct (e'' <=? em - p)%Z.
Qed.

Lemma binary_round_opp (p em : Z) (s : bool) (m : positive) (e : Z) :
  binary_round p em (negb s) m e = SFopp (binary_round p em s m e).
Proof.
  unfold binary_round.
  destruct (shl_align m e _) as [mz ez].
  apply binary_round_aux_opp.
Qed.

Lemma SF2Prim_opp (x : spec_float) : SF2Prim (SFopp x) = - SF2Prim x.
Proof.
  destruct x as [[ | ] | [ | ] | | [ | ] m e]; try reflexivity.
  cbn [SFopp negb SF2Prim].
  now rewrite opp_involutive.
Qed.

(** [static_cast<float>(-x)] is [-static_cast<float>(x)]. *)
Lemma to_float32_opp (x : double) : to_float32 (- x) = - to_float32 x.
Proof.
  unfold to_float32.
  rewrite opp_spec.
  destruct (Prim2SF x) as [s | s | | s m e]; try reflexivity.
  cbn [SFopp].
  now rewrite binary_round_opp, SF2Prim_opp.
Qed.

(** The product of a [float] with the [float]s 1 and -1. *)
Lemma mulf32_one (m : float32) : mulf32 1 m = to_float32 m.
Proof. unfold mulf32; now rewrite mul_one_l. Qed.

Lemma mulf32_minus_one (m : float32) : mulf32 (-1) m = - to_float32 m.
Proof. unfold mulf32; now rewrite mul_minus_one_l, to_float32_opp. Qed.

(** *** Signs *)










Section Properties.

Context {Camera RaycastManager AllowVolumes Meshes TrKey : Type}.
Context {collaborators : Collaborators Camera RaycastManager AllowVolumes Meshes TrKey}.

(** ** The end of a drag *)

(** C1, as amended.  Whenever a session exists and the event is not a drag
    motion, the handler writes the transformation into the model (one
    [do_move] labelled "Move over surface"), switches moving and picking
    back on and destroys the session, whatever the event is; what it returns
    is whether the event is a left-button release. *)
Theorem drag_end_commits_and_reports_left_up
    (mouse_event : wxMouseEvent) (camera : Camera) (st : State RaycastManager AllowVolumes)
    (up_limit : option double) (sd : SurfaceDrag AllowVolumes) :
  surface_drag st = Some sd ->
  Dragging mouse_event = false ->
  exists st' : State RaycastManager AllowVolumes,
    on_mouse_surface_drag mouse_event camera st up_limit = Ok (LeftUp mouse_event, st')
    /\ moves_done (canvas st') = "Move over surface"%string :: moves_done (canvas st)
    /\ moving_enabled (canvas st') = true
    /\ picking_enabled (canvas st') = true
    /\ surface_drag st' = None
    /\ gl_volumes (canvas st') = gl_volumes (canvas st)
    /\ raycast_manager st' = raycast_manager st.
Proof.
  intros Hsd Hdrag.
  unfold on_mouse_surface_drag.
  rewrite Hsd, Hdrag.
  cbn [has_value negb andb].
  eexists; split; [reflexivity | ].
  cbn; auto 10.
Qed.

(** ** A drag step without a hit *)

(** C2.  A drag motion in an active session whose ray finds nothing leaves
    every scene volume as it was, records "no hit" in the session, asks for
    a redraw, keeps the session and returns true. *)
Theorem drag_without_hit_keeps_transforms
    (mouse_event : wxMouseEvent) (camera : Camera) (st : State RaycastManager AllowVolumes)
    (up_limit : option double) (sd : SurfaceDrag AllowVolumes) :
  surface_drag st = Some sd ->
  Dragging mouse_event = true ->
  ray_from_camera (raycast_manager st)
                  (add2d (mouse_position mouse_event) (mouse_offset_without_sla_shift sd))
                  camera (condition sd) = None ->
  exists st' : State RaycastManager AllowVolumes,
    on_mouse_surface_drag mouse_event camera st up_limit = Ok (true, st')
    /\ gl_volumes (canvas st') = gl_volumes (canvas st)
    /\ surface_drag st' = Some (set_exist_hit sd false)
    /\ exist_hit (set_exist_hit sd false) = false
    /\ dirty (canvas st') = true.
Proof.
  intros Hsd Hdrag Hray.
  unfold on_mouse_surface_drag.
  rewrite Hsd, Hdrag, (Dragging_not_Moving _ Hdrag), (Dragging_not_LeftDown _ Hdrag).
  cbn [has_value negb andb].
  unfold dragging.
  rewrite Hsd.
  cbn [deref bind].
  cbn [mouse_offset_without_sla_shift condition set_exist_hit].
  rewrite Hray.
  eexists; split; [reflexivity | ].
  cbn; auto.
Qed.

(** ** Declining a drag *)

(** C3.  When the selected volume is the only part of its object,
    [start_dragging] returns false and hands back the state it was given:
    no session, the canvas and the raycast manager untouched.  So does the
    handler on the pointer press that would have started the drag. *)
Theorem start_dragging_declines_only_part
    (mouse_pos : Vec2d) (camera : Camera) (st : State RaycastManager AllowVolumes) (up_limit : option double)
    (p : nat) (gl_vol : GLVolume) (object : ModelObject) (volume : ModelVolume) :
  get_selected_gl_volume (get_selection (canvas st)) (gl_volumes (canvas st)) = Some p ->
  nth_error (gl_volumes (canvas st)) p = Some gl_vol ->
  get_model_object gl_vol (model_objects (canvas st)) = Some object ->
  get_model_volume gl_vol object = Some volume ->
  is_the_only_one_part object volume = true ->
  start_dragging mouse_pos camera st up_limit = Ok (false, st)
  /\ forall mouse_event : wxMouseEvent,
       LeftDown mouse_event = true ->
       surface_drag st = None ->
       on_mouse_surface_drag mouse_event camera st up_limit = Ok (false, st).
Proof.
  intros Hsel Hvol Hobj Hmv Honly.
  assert (Hstart : forall pos, start_dragging pos camera st up_limit = Ok (false, st)).
  { intros pos.
    unfold start_dragging.
    rewrite Hsel, Hvol.
    cbn [deref bind].
    destruct (get_first_hover_volume_idx (canvas st) <? 0)%Z; [reflexivity | ].
    destruct (_ || _); [reflexivity | ].
    rewrite Hobj, Hmv.
    destruct (get_model_instance gl_vol object); [ | reflexivity].
    now rewrite Honly. }
  split; [apply Hstart | ].
  intros mouse_event Hdown Hnone.
  unfold on_mouse_surface_drag.
  rewrite Hnone, (LeftDown_not_Moving _ Hdown), Hdown.
  cbn [has_value andb].
  apply Hstart.
Qed.

(** ** The guard against an invalid transformation *)


(** What [dragging] does on a hit, by the outcome of the guard. *)
Lemma dragging_on_hit
    (mouse_pos : Vec2d) (camera : Camera) (st : State RaycastManager AllowVolumes)
    (up_limit : option double) (sd : SurfaceDrag AllowVolumes) (h : Hit TrKey) :
  surface_drag st = Some sd ->
  ray_from_camera (raycast_manager st)
                  (add2d mouse_pos (mouse_offset_without_sla_shift sd))
                  camera (condition sd) = Some h ->
  let sd' := set_world (set_exist_hit sd true) (world_without_skew sd) in
  let volume_new := solve_volume_new sd h up_limit in
  dragging mouse_pos camera st up_limit =
  if differs_from_itself (coeff00 (linear volume_new)) then
    Ok (true, mkState (Some sd') (canvas st) (raycast_manager st))
  else
    let* dragged := deref (nth_error (gl_volumes (canvas st)) (gl_volume sd)) in
    let volume := get_model_volume_in dragged (model_objects (canvas st)) in
    let c := with_volumes (canvas st)
               (update_all_instances dragged (finish_volume_new sd' volume volume_new)
                                     (gl_volumes (canvas st))) in
    Ok (true, mkState (Some sd') (set_as_dirty c) (raycast_manager st)).
Proof.
  intros Hsd Hray sd' volume_new.
  unfold dragging.
  rewrite Hsd.
  cbn [deref bind].
  cbn [mouse_offset_without_sla_shift condition set_exist_hit].
  rewrite Hray.
  reflexivity.
Qed.

(** C4, as amended.  A drag step whose new volume transformation has a NaN
    at entry (0, 0) is discarded: the canvas, and with it every scene
    volume's transformation, is handed back as it was, the session stays (it
    records the hit, and its world transformation has had the skew of its Z
    axis reset), and the step returns true. *)
Theorem nan_step_is_discarded
    (mouse_pos : Vec2d) (camera : Camera) (st : State RaycastManager AllowVolumes)
    (up_limit : option double) (sd : SurfaceDrag AllowVolumes) (h : Hit TrKey) :
  surface_drag st = Some sd ->
  ray_from_camera (raycast_manager st)
                  (add2d mouse_pos (mouse_offset_without_sla_shift sd))
                  camera (condition sd) = Some h ->
  differs_from_itself (coeff00 (linear (solve_volume_new sd h up_limit))) = true ->
  dragging mouse_pos camera st up_limit
  = Ok (true,
        mkState (Some (set_world (set_exist_hit sd true) (world_without_skew sd)))
                (canvas st) (raycast_manager st)).
Proof.
  intros Hsd Hray Hnan.
  rewrite (dragging_on_hit _ _ _ _ Hsd Hray).
  cbv zeta.
  now rewrite Hnan.
Qed.

(** ** Keeping the instances together *)

Lemma nth_error_update_all_instances
    (dragged : GLVolume) (volume_new : Transform3d) (vols : list GLVolume)
    (i : nat) (vol : GLVolume) :
  nth_error vols i = Some vol ->
  nth_error (update_all_instances dragged volume_new vols) i =
  Some (if (object_idx vol =? object_idx dragged)%Z && (volume_idx vol =? volume_idx dragged)%Z
        then set_volume_transformation vol volume_new
        else vol).
Proof.
  intros H.
  unfold update_all_instances.
  rewrite nth_error_map, H.
  cbn [option_map].
  now destruct (object_idx vol =? object_idx dragged)%Z,
               (volume_idx vol =? volume_idx dragged)%Z.
Qed.

(** C9.  A drag step that passes the guard computes one transformation and
    assigns it to every scene volume whose object and volume index are those
    of the dragged volume, and to no other: a scene volume with other
    indices is left as it was, and all those with the dragged volume's
    indices end with the same transformation. *)
Theorem drag_step_updates_all_instances
    (mouse_pos : Vec2d) (camera : Camera) (st : State RaycastManager AllowVolumes)
    (up_limit : option double) (sd : SurfaceDrag AllowVolumes) (h : Hit TrKey)
    (dragged : GLVolume) :
  surface_drag st = Some sd ->
  ray_from_camera (raycast_manager st)
                  (add2d mouse_pos (mouse_offset_without_sla_shift sd))
                  camera (condition sd) = Some h ->
  differs_from_itself (coeff00 (linear (solve_volume_new sd h up_limit))) = false ->
  nth_error (gl_volumes (canvas st)) (gl_volume sd) = Some dragged ->
  exists (st' : State RaycastManager AllowVolumes) (volume_new : Transform3d),
    dragging mouse_pos camera st up_limit = Ok (true, st')
    /\ volume_new
       = finish_volume_new (set_world (set_exist_hit sd true) (world_without_skew sd))
                           (get_model_volume_in dragged (model_objects (canvas st)))
                           (solve_volume_new sd h up_limit)
    /\ List.length (gl_volumes (canvas st')) = List.length (gl_volumes (canvas st))
    /\ forall (i : nat) (vol : GLVolume),
         nth_error (gl_volumes (canvas st)) i = Some vol ->
         exists vol' : GLVolume,
           nth_error (gl_volumes (canvas st')) i = Some vol'
           /\ object_idx vol' = object_idx vol
           /\ volume_idx vol' = volume_idx vol
           /\ (object_idx vol = object_idx dragged /\ volume_idx vol = volume_idx dragged ->
               get_volume_transformation vol' = volume_new)
           /\ (~ (object_idx vol = object_idx dragged /\ volume_idx vol = volume_idx dragged) ->
               vol' = vol).
Proof.
  intros Hsd Hray Hok Hdragged.
  rewrite (dragging_on_hit _ _ _ _ Hsd Hray).
  cbv zeta.
  rewrite Hok, Hdragged.
  cbn [deref bind].
  eexists; eexists.
  split; [reflexivity | ].
  split; [reflexivity | ].
  cbn [canvas set_as_dirty with_volumes gl_volumes].
  split; [apply length_map | ].
  intros i vol Hi.
  rewrite (nth_error_update_all_instances _ _ _ _ Hi).
  eexists; split; [reflexivity | ].
  destruct (Z.eqb_spec (object_idx vol) (object_idx dragged)) as [Ho | Ho];
    destruct (Z.eqb_spec (volume_idx vol) (volume_idx dragged)) as [Hv | Hv];
    cbn [andb]; repeat split; auto; tauto.
Qed.

(** ** The emboss shape read at the start of a drag *)

(** [start_dragging] once nothing declines the drag. *)
Lemma start_dragging_accepted
    (mouse_pos : Vec2d) (camera : Camera) (st : State RaycastManager AllowVolumes)
    (up_limit : option double)
    (p : nat) (gl_vol : GLVolume)
    (object : ModelObject) (instance : ModelInstance) (volume : ModelVolume) :
  get_selected_gl_volume (get_selection (canvas st)) (gl_volumes (canvas st)) = Some p ->
  nth_error (gl_volumes (canvas st)) p = Some gl_vol ->
  get_first_hover_volume_idx (canvas st) = Z.of_nat p ->
  get_model_object gl_vol (model_objects (canvas st)) = Some object ->
  get_model_instance gl_vol object = Some instance ->
  get_model_volume gl_vol object = Some volume ->
  is_the_only_one_part object volume = false ->
  start_dragging mouse_pos camera st up_limit
  = begin_session mouse_pos camera st up_limit p gl_vol object instance volume.
Proof.
  intros Hsel Hvol Hhover Hobj Hinst Hmv Honly.
  unfold start_dragging.
  rewrite Hsel, Hvol, Hhover.
  cbn [deref bind].
  destruct (Z.ltb_spec (Z.of_nat p) 0) as [Hneg | _]; [lia | ].
  rewrite Nat2Z.id, (nth_error_in_range _ _ Hvol), Nat.eqb_refl.
  cbn [negb orb].
  now rewrite Hobj, Hinst, Hmv, Honly.
Qed.

(** C10.  For a selected, hovered volume that is not the only part of its
    object, [start_dragging] reads the volume's emboss shape without asking
    whether there is one: the call is undefined exactly when the volume has
    no emboss shape, and with one it starts the drag. *)
Theorem start_dragging_reads_emboss_shape_unchecked
    (mouse_pos : Vec2d) (camera : Camera) (st : State RaycastManager AllowVolumes)
    (up_limit : option double)
    (p : nat) (gl_vol : GLVolume)
    (object : ModelObject) (instance : ModelInstance) (volume : ModelVolume) :
  get_selected_gl_volume (get_selection (canvas st)) (gl_volumes (canvas st)) = Some p ->
  nth_error (gl_volumes (canvas st)) p = Some gl_vol ->
  get_first_hover_volume_idx (canvas st) = Z.of_nat p ->
  get_model_object gl_vol (model_objects (canvas st)) = Some object ->
  get_model_instance gl_vol object = Some instance ->
  get_model_volume gl_vol object = Some volume ->
  is_the_only_one_part object volume = false ->
  (emboss_shape volume = None <-> start_dragging mouse_pos camera st up_limit = Undefined)
  /\ (emboss_shape volume <> None ->
      exists st' : State RaycastManager AllowVolumes,
        start_dragging mouse_pos camera st up_limit = Ok (true, st')
        /\ surface_drag st' <> None).
Proof.
  intros Hsel Hvol Hhover Hobj Hinst Hmv Honly.
  rewrite (start_dragging_accepted mouse_pos camera st up_limit
             Hsel Hvol Hhover Hobj Hinst Hmv Honly).
  unfold begin_session.
  destruct (emboss_shape volume) as [es | ]; cbn [deref bind].
  - split; [split; discriminate | ].
    intros _.
    eexists; split; [reflexivity | ].
    cbn [surface_drag]; discriminate.
  - split; [split; reflexivity | ].
    intros H; now destruct H.
Qed.

(** ** The surface distance *)

(** C6, as amended.  Given the hit of the ray from the volume's origin along
    its forward axis, [calc_distance] returns nothing exactly when the
    squared world distance to the hit, the double the code compares, is
    below 1e-4 or above the larger of [std::pow(2 depth, 2)] and 10;
    otherwise it returns plus or minus the square root of that squared
    distance narrowed to [float], and it is the squared distance that is
    then neither below the one nor above the other, not the square of the
    [float] returned. *)
Theorem calc_distance_none_iff_out_of_range
    (gl_vol : GLVolume) (raycaster : RaycastManager) (cond : AllowVolumes) (hit : Hit TrKey) :
  closest_hit raycaster (translation (world_matrix gl_vol))
              (vopp (get_z_base (world_matrix gl_vol))) cond = Some hit ->
  let hit_world := tr_apply (get_transformation raycaster (tr_key hit)) (position hit) in
  let offset := vsub hit_world (translation (world_matrix gl_vol)) in
  let distance_sq := squaredNorm offset in
  let depth := vz (bb_max (bounding_box gl_vol)) - vz (bb_min (bounding_box gl_vol)) in
  let square := std_pow (2 * depth) 2 in
  let hi := if square <? 10 then 10 else square in
  let root := to_float32 (to_float32 (PrimFloat.sqrt distance_sq)) in
  (calc_distance gl_vol raycaster cond = None
   <-> ((distance_sq <? 0x1.a36e2eb1c432dp-14) = true \/ (hi <? distance_sq) = true))
  /\ (forall d : float32,
        calc_distance gl_vol raycaster cond = Some d ->
        (distance_sq <? 0x1.a36e2eb1c432dp-14) = false /\ (hi <? distance_sq) = false
        /\ (d = root \/ d = - root)).
Proof.
  intros Hhit hit_world offset distance_sq depth square hi root.
  unfold calc_distance.
  rewrite Hhit.
  change (p_to_hit_of gl_vol raycaster hit) with offset.
  change (squaredNorm offset) with distance_sq.
  change (mm_min surface_distance_sq) with 0x1.a36e2eb1c432dp-14.
  change (max_squared_distance gl_vol) with hi.
  destruct (distance_sq <? 0x1.a36e2eb1c432dp-14); [ | destruct (hi <? distance_sq)].
  - split; [split; auto | discriminate].
  - split; [split; auto | discriminate].
  - split.
    + split; [discriminate | intros [H | H]; discriminate].
    + intros d Hd.
      apply Some_eq in Hd.
      subst d.
      repeat split.
      destruct (0 <? _); [left; apply mulf32_one | right; apply mulf32_minus_one].
Qed.


(** ** Facing the camera *)

Lemma nth_error_update_nth {A : Type} (l : list A) (i : nat) (f : A -> A) (a : A) :
  nth_error l i = Some a -> nth_error (update_nth l i f) i = Some (f a).
Proof.
  revert i.
  induction l as [ | b l IH]; intros [ | i] H; cbn in *; try discriminate.
  - congruence.
  - now apply IH.
Qed.

(** Facing the camera does nothing, and returns false, when the camera
    direction in the volume's coordinates is within tolerance of the emboss
    direction. *)
Theorem face_to_camera_is_noop_when_facing
    (camera : Camera) (c : GLCanvas3D) (to_world : Transform3d) :
  world_matrix_fixed_sel c = Ok to_world ->
  is_approx_vec (normalize (mat_vec (linear (inverse to_world)) (get_dir_forward camera)))
                emboss_dir = true ->
  face_selected_volume_to_camera camera c = Ok (false, c).
Proof.
  intros Hworld Hfacing.
  unfold face_selected_volume_to_camera.
  destruct (sel_is_empty (get_selection c)); [reflexivity | ].
  rewrite Hworld.
  cbn [bind].
  now rewrite Hfacing.
Qed.

(** C5, the case of a camera direction opposite to the emboss direction.
    The selected volume is turned, about its own origin, by the rotation
    [AngleAxis(M_PI_2, Y)]: by [M_PI_2], of which [M_PI] is twice. *)
Theorem face_to_camera_opposite_turns_by_M_PI_2
    (camera : Camera) (c : GLCanvas3D) (to_world : Transform3d)
    (idx : nat) (rest : list nat) (gl_vol : GLVolume) (mv : ModelVolume) :
  get_volume_idxs (get_selection c) = idx :: rest ->
  world_matrix_fixed_sel c = Ok to_world ->
  is_approx_vec (normalize (mat_vec (linear (inverse to_world)) (get_dir_forward camera)))
                emboss_dir = false ->
  is_approx_vec (normalize (mat_vec (linear (inverse to_world)) (get_dir_forward camera)))
                (vopp emboss_dir) = true ->
  nth_error (gl_volumes c) idx = Some gl_vol ->
  get_model_volume_in gl_vol (model_objects c) = Some mv ->
  M_PI_2 + M_PI_2 = M_PI
  /\ exists c' : GLCanvas3D,
       face_selected_volume_to_camera camera c = Ok (true, c')
       /\ nth_error (gl_volumes c') idx
          = Some (set_volume_transformation gl_vol
                    (rotate_keeping_offset (get_volume_transformation gl_vol)
                                           (AngleAxis M_PI_2 (mkVec3 0 1 0)))).
Proof.
  intros Hsel Hworld Hnot_facing Hopposite Hvol Hmv.
  split; [vm_compute; reflexivity | ].
  unfold face_selected_volume_to_camera, sel_is_empty.
  rewrite Hsel, Hworld.
  cbn [bind hd_error deref].
  rewrite Hnot_facing, Hvol.
  cbn [bind deref].
  unfold face_rotation.
  rewrite Hopposite.
  change (get_model_volume_in (set_volume_transformation gl_vol ?tr) (model_objects c))
    with (get_model_volume_in gl_vol (model_objects c)).
  rewrite Hmv.
  cbn [bind deref].
  eexists; split; [reflexivity | ].
  cbn [gl_volumes with_objects with_volumes].
  now rewrite (nth_error_update_nth _ _ _ Hvol).
Qed.

(** ** The handler as a whole *)

(** What [start_dragging] can return: it declines and hands the state back,
    or it starts a session and switches moving and picking off. *)
Lemma start_dragging_outcome
    (mouse_pos : Vec2d) (camera : Camera) (st : State RaycastManager AllowVolumes)
    (up_limit : option double) (ret : bool) (st' : State RaycastManager AllowVolumes) :
  start_dragging mouse_pos camera st up_limit = Ok (ret, st') ->
  (ret = false /\ st' = st)
  \/ (ret = true /\ surface_drag st' <> None
      /\ moving_enabled (canvas st') = false /\ picking_enabled (canvas st') = false
      /\ gl_volumes (canvas st') = gl_volumes (canvas st)).
Proof.
  assert (Hdecline : Ok (false, st) = Ok (ret, st') ->
                     (ret = false /\ st' = st)
                     \/ (ret = true /\ surface_drag st' <> None
                         /\ moving_enabled (canvas st') = false
                         /\ picking_enabled (canvas st') = false
                         /\ gl_volumes (canvas st') = gl_volumes (canvas st))).
  { intros H; left; split; congruence. }
  unfold start_dragging.
  destruct (get_selected_gl_volume _ _) as [p | ]; [ | exact Hdecline].
  destruct (nth_error (gl_volumes (canvas st)) p) as [gl_vol | ]; cbn [deref bind];
    [ | discriminate].
  destruct (_ <? 0)%Z; [exact Hdecline | ].
  destruct (_ || _); [exact Hdecline | ].
  destruct (get_model_object _ _) as [object | ]; [ | exact Hdecline].
  destruct (get_model_instance gl_vol object) as [instance | ]; [ | exact Hdecline].
  destruct (get_model_volume gl_vol object) as [volume | ]; [ | exact Hdecline].
  destruct (is_the_only_one_part object volume); [exact Hdecline | ].
  unfold begin_session.
  destruct (emboss_shape volume) as [es | ]; cbn [deref bind]; [ | discriminate].
  intros H.
  apply Ok_pair_eq in H.
  destruct H as [<- <-].
  right.
  cbn.
  repeat split; congruence.
Qed.

(** What [dragging] can return: true, with the session kept and the moving
    and picking switches as they were. *)
Lemma dragging_outcome
    (mouse_pos : Vec2d) (camera : Camera) (st : State RaycastManager AllowVolumes)
    (up_limit : option double) (ret : bool) (st' : State RaycastManager AllowVolumes) :
  dragging mouse_pos camera st up_limit = Ok (ret, st') ->
  ret = true /\ surface_drag st' <> None
  /\ moving_enabled (canvas st') = moving_enabled (canvas st)
  /\ picking_enabled (canvas st') = picking_enabled (canvas st).
Proof.
  unfold dragging.
  destruct (surface_drag st) as [sd | ]; cbn [deref bind]; [ | discriminate].
  destruct (ray_from_camera _ _ _ _) as [h | ];
    [destruct (differs_from_itself _);
       [ | destruct (nth_error _ _) as [dragged | ]; cbn [deref bind]; [ | discriminate]] | ];
    intros H;
    apply Ok_pair_eq in H;
    destruct H as [<- <-];
    cbn; repeat split; congruence.
Qed.

(** While a session exists, moving and picking are switched off: the handler
    keeps it so, whatever the event. *)
Theorem session_keeps_moving_and_picking_off
    (mouse_event : wxMouseEvent) (camera : Camera) (st : State RaycastManager AllowVolumes)
    (up_limit : option double) (ret : bool) (st' : State RaycastManager AllowVolumes) :
  (surface_drag st <> None ->
   moving_enabled (canvas st) = false /\ picking_enabled (canvas st) = false) ->
  on_mouse_surface_drag mouse_event camera st up_limit = Ok (ret, st') ->
  surface_drag st' <> None ->
  moving_enabled (canvas st') = false /\ picking_enabled (canvas st') = false.
Proof.
  intros Hinv.
  unfold on_mouse_surface_drag.
  destruct (surface_drag st) as [sd | ] eqn:Hsd; cbn [has_value negb andb].
  - destruct (Dragging mouse_event) eqn:Hdrag; cbn [negb].
    + rewrite (Dragging_not_Moving _ Hdrag), (Dragging_not_LeftDown _ Hdrag).
      intros H _.
      destruct (dragging_outcome _ _ _ _ H) as (_ & _ & -> & ->).
      apply Hinv; discriminate.
    + intros H Hsome.
      apply Ok_pair_eq in H.
      destruct H as [_ <-].
      now destruct Hsome.
  - destruct (Moving mouse_event).
    { intros H Hsome.
      apply Ok_pair_eq in H.
      destruct H as [_ <-].
      rewrite Hsd in Hsome; now destruct Hsome. }
    destruct (LeftDown mouse_event).
    { intros H Hsome.
      destruct (start_dragging_outcome _ _ _ _ H) as [[_ ->] | (_ & _ & Hm & Hp & _)];
        [rewrite Hsd in Hsome; now destruct Hsome | auto]. }
    intros H Hsome.
    apply Ok_pair_eq in H.
    destruct H as [_ <-].
    rewrite Hsd in Hsome; now destruct Hsome.
Qed.

(** A motion without a button is ignored when no drag is on, and so is a
    drag motion when there is no session. *)
Theorem motion_without_session_is_ignored
    (mouse_event : wxMouseEvent) (camera : Camera) (st : State RaycastManager AllowVolumes)
    (up_limit : option double) :
  surface_drag st = None ->
  is_motion (GetEventType mouse_event) = true ->
  on_mouse_surface_drag mouse_event camera st up_limit = Ok (false, st).
Proof.
  intros Hnone Hmotion.
  unfold on_mouse_surface_drag, Moving, Dragging, LeftDown.
  rewrite Hnone, Hmotion.
  cbn [has_value andb negb].
  destruct (AnyButtonIsDown mouse_event); cbn [negb]; [ | reflexivity].
  now destruct (GetEventType mouse_event).
Qed.

End Properties.

(* ------------------------------------------------------------------------- *)
(** ** Resetting the skew *)

(** The first two columns are the ones given, over any scalar. *)
Lemma reset_skew_keeps_xy {T : Type} {ST : Scalar T} (m : Matrix3 T) :
  col0 (reset_skew m) = col0 m /\ col1 (reset_skew m) = col1 m.
Proof. split; reflexivity. Qed.

(** C8, as amended.  Resetting the skew leaves the first two columns exactly
    as they are, in [double] as in exact arithmetic.  In exact arithmetic,
    when the first two columns are not parallel (their cross product is not
    zero), doing it twice gives the matrix that doing it once gives. *)
Theorem reset_skew_keeps_xy_and_is_idempotent_exactly (m : Matrix3d) (r : Matrix3 R) :
  squaredNorm (cross (col0 r) (col1 r)) <> 0%R ->
  (col0 (reset_skew m) = col0 m /\ col1 (reset_skew m) = col1 m)
  /\ (col0 (reset_skew r) = col0 r /\ col1 (reset_skew r) = col1 r)
  /\ reset_skew (reset_skew r) = reset_skew r.
Proof.
  intros Hcross.
  split; [apply reset_skew_keeps_xy | ].
  split; [apply reset_skew_keeps_xy | ].
  destruct r as [[a1 a2 a3] [b1 b2 b3] [c1 c2 c3]].
  unfold reset_skew, set_col2, vscale, squaredNorm, dot, cross in *.
  cbn [col0 col1 col2 vx vy vz s_add s_sub s_mul s_div real_scalar] in *.
  f_equal.
  f_equal; field; exact Hcross.
Qed.

(* ------------------------------------------------------------------------- *)
(** * The properties on the scene *)


(** ** C1 *)

(** The amended C1 on a left-button release that ends a drag of the text. *)
Lemma drag_end_on_left_up :
  surface_drag (Ex.in_drag Ex.text_session Ex.plate) = Some Ex.text_session
  /\ Dragging Ex.left_up = false
  /\ exists st' : State Ex.RaycastManager Ex.AllowVolumes,
       on_mouse_surface_drag Ex.left_up Ex.looking_down (Ex.in_drag Ex.text_session Ex.plate) None
       = Ok (LeftUp Ex.left_up, st')
       /\ moves_done (canvas st')
          = "Move over surface"%string :: moves_done (canvas (Ex.in_drag Ex.text_session Ex.plate))
       /\ moving_enabled (canvas st') = true
       /\ picking_enabled (canvas st') = true
       /\ surface_drag st' = None
       /\ gl_volumes (canvas st') = gl_volumes (canvas (Ex.in_drag Ex.text_session Ex.plate))
       /\ raycast_manager st' = raycast_manager (Ex.in_drag Ex.text_session Ex.plate).
Proof.
  split; [reflexivity | ].
  split; [reflexivity | ].
  apply (drag_end_commits_and_reports_left_up
           Ex.left_up Ex.looking_down (Ex.in_drag Ex.text_session Ex.plate) None
           (sd := Ex.text_session)); reflexivity.
Defined.

(** C1 as stated fails.  A right-button release ends the drag of the text;
    it is not a left-button release, and the claim has the handler return
    false without committing.  The handler does return false, but the model
    has been written: [do_move] ran. *)
Lemma right_up_ends_drag_with_commit :
  LeftUp Ex.right_up = false
  /\ ~ (forall (ret : bool) (st' : State Ex.RaycastManager Ex.AllowVolumes),
          on_mouse_surface_drag Ex.right_up Ex.looking_down
                                (Ex.in_drag Ex.text_session Ex.plate) None = Ok (ret, st') ->
          ret = false
          /\ moves_done (canvas st')
             = moves_done (canvas (Ex.in_drag Ex.text_session Ex.plate))).
Proof.
  split; [reflexivity | ].
  intros H.
  specialize (H _ _ eq_refl).
  destruct H as [_ H].
  discriminate H.
Qed.

(** ** C2 *)

(** C2 on a drag motion of the text whose ray leaves the plate. *)
Lemma drag_without_hit_off_the_plate :
  surface_drag (Ex.in_drag Ex.text_session Ex.off_plate) = Some Ex.text_session
  /\ Dragging Ex.left_drag = true
  /\ exists st' : State Ex.RaycastManager Ex.AllowVolumes,
       on_mouse_surface_drag Ex.left_drag Ex.looking_down
                             (Ex.in_drag Ex.text_session Ex.off_plate) None = Ok (true, st')
       /\ gl_volumes (canvas st') = gl_volumes (canvas (Ex.in_drag Ex.text_session Ex.off_plate))
       /\ surface_drag st' = Some (set_exist_hit Ex.text_session false)
       /\ exist_hit (set_exist_hit Ex.text_session false) = false
       /\ dirty (canvas st') = true.
Proof.
  split; [reflexivity | ].
  split; [reflexivity | ].
  apply (drag_without_hit_keeps_transforms
           Ex.left_drag Ex.looking_down (Ex.in_drag Ex.text_session Ex.off_plate) None
           (sd := Ex.text_session)); reflexivity.
Defined.

(** ** C3 *)

(** C3 on a press on the part of an object that has no other part. *)
Lemma start_dragging_declines_lone_object :
  Ex.one_volume_only Ex.lone_object Ex.base_part = true
  /\ start_dragging (mouse_position Ex.left_down) Ex.looking_down
                    (Ex.idle Ex.lone_canvas Ex.plate) None
     = Ok (false, Ex.idle Ex.lone_canvas Ex.plate)
  /\ forall mouse_event : wxMouseEvent,
       LeftDown mouse_event = true ->
       surface_drag (Ex.idle Ex.lone_canvas Ex.plate) = None ->
       on_mouse_surface_drag mouse_event Ex.looking_down (Ex.idle Ex.lone_canvas Ex.plate) None
       = Ok (false, Ex.idle Ex.lone_canvas Ex.plate).
Proof.
  split; [reflexivity | ].
  apply (start_dragging_declines_only_part
           (mouse_position Ex.left_down) Ex.looking_down (Ex.idle Ex.lone_canvas Ex.plate) None
           (p := 0%nat)
           (gl_vol := Ex.scene_volume 0 0 Transform3_Identity Transform3_Identity)
           (object := Ex.lone_object) (volume := Ex.base_part)); reflexivity.
Defined.

(** ** C4 *)

(** The amended C4 on a session whose world transformation has collapsed:
    the reset of the skew divides zero by zero, the NaN spreads through the
    rotation to entry (0, 0), and the step is discarded. *)
Lemma nan_step_of_flat_session :
  differs_from_itself (coeff00 (linear (solve_volume_new Ex.flat_session (Ex.hit_at 3 4 0) None)))
  = true
  /\ dragging (mouse_position Ex.left_drag) Ex.looking_down
              (Ex.in_drag Ex.flat_session Ex.plate) None
     = Ok (true,
           mkState (Some (set_world (set_exist_hit Ex.flat_session true)
                                    (world_without_skew Ex.flat_session)))
                   (canvas (Ex.in_drag Ex.flat_session Ex.plate))
                   (raycast_manager (Ex.in_drag Ex.flat_session Ex.plate))).
Proof.
  split; [vm_compute; reflexivity | ].
  apply (nan_step_is_discarded
           (mouse_position Ex.left_drag) Ex.looking_down (Ex.in_drag Ex.flat_session Ex.plate)
           None (sd := Ex.flat_session) (h := Ex.hit_at 3 4 0));
    [reflexivity | reflexivity | vm_compute; reflexivity].
Defined.

(** C4 as stated fails.  The instance is scaled by one half and the hit lies
    at (2^1023, 0, 0): every input is finite.  In instance coordinates the
    hit is at twice that, which overflows: the new volume transformation has
    an infinity in its translation, while its entry (0, 0) is 1.  The step
    is not discarded: the scene volumes of the text are given that
    transformation. *)
Lemma overflowing_step_is_written :
  all_finite (world Ex.half_session) = true
  /\ all_finite (instance_inv Ex.half_session) = true
  /\ finite_vec (position (Ex.hit_at 0x1p+1023 0 0)) = true
  /\ all_finite (solve_volume_new Ex.half_session (Ex.hit_at 0x1p+1023 0 0) None) = false
  /\ ~ (forall (ret : bool) (st' : State Ex.RaycastManager Ex.AllowVolumes),
          dragging (mouse_position Ex.left_drag) Ex.looking_down
                   (Ex.in_drag Ex.half_session Ex.far_plate) None = Ok (ret, st') ->
          map get_volume_transformation (gl_volumes (canvas st'))
          = map get_volume_transformation
                (gl_volumes (canvas (Ex.in_drag Ex.half_session Ex.far_plate)))).
Proof.
  split; [vm_compute; reflexivity | ].
  split; [vm_compute; reflexivity | ].
  split; [vm_compute; reflexivity | ].
  split; [vm_compute; reflexivity | ].
  intros H.
  specialize (H _ _ eq_refl).
  apply (f_equal (fun l => match l with
                           | _ :: tr :: _ => PrimFloat.eqb (vx (translation tr)) 0
                           | _ => false
                           end)) in H.
  vm_compute in H.
  discriminate H.
Qed.

(** ** C5 *)

(** C5 on a camera that looks at the text from behind: the camera direction,
    in the volume's coordinates, is opposite to the emboss direction.  The
    text is turned by [M_PI_2] about Y.  That sends the emboss direction to
    -X (up to libm's cosine of [M_PI_2]), at a right angle to the camera
    direction; the turn by [M_PI] about Y would have sent it along the
    camera direction. *)
Lemma face_to_camera_from_behind_turns_a_quarter :
  Ex.approx_vec Ex.looking_up emboss_dir = false
  /\ Ex.approx_vec Ex.looking_up (vopp emboss_dir) = true
  /\ (M_PI_2 + M_PI_2 = M_PI
      /\ exists c' : GLCanvas3D,
           face_selected_volume_to_camera Ex.looking_up Ex.text_canvas = Ok (true, c')
           /\ nth_error (gl_volumes c') 1
              = Some (set_volume_transformation Ex.text_volume
                        (rotate_keeping_offset (get_volume_transformation Ex.text_volume)
                                               (AngleAxis M_PI_2 (mkVec3 0 1 0)))))
  /\ mat_vec (linear (rotate_keeping_offset (get_volume_transformation Ex.text_volume)
                                            (AngleAxis M_PI_2 (mkVec3 0 1 0))))
             emboss_dir
     = mkVec3 (-1) 0 (-0x1.1a62633145c07p-54)
  /\ Ex.approx_vec
       (mat_vec (linear (rotate_keeping_offset (get_volume_transformation Ex.text_volume)
                                               (AngleAxis M_PI (mkVec3 0 1 0))))
                emboss_dir)
       Ex.looking_up = true.
Proof.
  split; [vm_compute; reflexivity | ].
  split; [vm_compute; reflexivity | ].
  split.
  - apply (face_to_camera_opposite_turns_by_M_PI_2
             Ex.looking_up Ex.text_canvas
             (to_world := Ex.at_point 0 0 5) (idx := 1%nat) (rest := [])
             (gl_vol := Ex.text_volume) (mv := Ex.text_part));
      vm_compute; reflexivity.
  - split; vm_compute; reflexivity.
Defined.

(** ** C6 and C7 *)

(** The amended C6 on the text standing 2 above a shelf: the ray along its
    forward axis hits the shelf, and the distance is in range. *)
Lemma calc_distance_range_above_shelf :
  closest_hit Ex.shelf (translation (world_matrix Ex.text_volume))
              (vopp (get_z_base (world_matrix Ex.text_volume))) 11%Z
  = Some (Ex.hit_at 0 0 3)
  /\ calc_distance Ex.text_volume Ex.shelf 11%Z = Some 2
  /\ let distance_sq :=
       squaredNorm (vsub (tr_apply (get_transformation Ex.shelf tt) (mkVec3 0 0 3))
                         (translation (world_matrix Ex.text_volume))) in
     let hi := if std_pow (2 * (2 - 0)) 2 <? 10 then 10 else std_pow (2 * (2 - 0)) 2 in
     let root := to_float32 (to_float32 (PrimFloat.sqrt distance_sq)) in
     (calc_distance Ex.text_volume Ex.shelf 11%Z = None
      <-> ((distance_sq <? 0x1.a36e2eb1c432dp-14) = true \/ (hi <? distance_sq) = true))
     /\ (forall d : float32,
           calc_distance Ex.text_volume Ex.shelf 11%Z = Some d ->
           (distance_sq <? 0x1.a36e2eb1c432dp-14) = false /\ (hi <? distance_sq) = false
           /\ (d = root \/ d = - root)).
Proof.
  split; [reflexivity | ].
  split; [vm_compute; reflexivity | ].
  apply (calc_distance_none_iff_out_of_range
           Ex.text_volume Ex.shelf 11%Z (hit := Ex.hit_at 0 0 3)).
  reflexivity.
Defined.

(** The original C6 fails on the thin part, of depth one half, with the
    surface at the depth [0x1.94c583ada5b52p+1] below it: the squared
    distance, the double next below 10, is in range, and the
    distance returned, the [float] [0x1.94c584p+1], has a square above
    10, the upper end of the range. *)
Lemma returned_distance_squares_above_the_range :
  closest_hit Ex.below_thin (translation (world_matrix Ex.thin_volume))
              (vopp (get_z_base (world_matrix Ex.thin_volume))) 11%Z
  = Some (Ex.hit_at 0 0 (-0x1.94c583ada5b52p+1))
  /\ squaredNorm (p_to_hit_of Ex.thin_volume Ex.below_thin
                              (Ex.hit_at 0 0 (-0x1.94c583ada5b52p+1)))
     = 0x1.3ffffffffffffp+3
  /\ max_squared_distance Ex.thin_volume = 10
  /\ calc_distance Ex.thin_volume Ex.below_thin 11%Z = Some 0x1.94c584p+1
  /\ (10 <? 0x1.94c584p+1 * 0x1.94c584p+1) = true.
Proof.
  repeat split; vm_compute; reflexivity.
Qed.



(** ** C8 *)

(** The amended C8 on a linear map whose Z axis leans over, (1, 1, 1) over
    the unit X and Y axes, and on a linear map with a scale of one tenth
    along Y. *)
Lemma reset_skew_of_leaning_axis :
  squaredNorm (cross (col0 Ex.leaning) (col1 Ex.leaning)) <> 0%R
  /\ (col0 (reset_skew Ex.tenth_along_y) = col0 Ex.tenth_along_y
      /\ col1 (reset_skew Ex.tenth_along_y) = col1 Ex.tenth_along_y)
  /\ (col0 (reset_skew Ex.leaning) = col0 Ex.leaning
      /\ col1 (reset_skew Ex.leaning) = col1 Ex.leaning)
  /\ reset_skew (reset_skew Ex.leaning) = reset_skew Ex.leaning.
Proof.
  assert (H : squaredNorm (cross (col0 Ex.leaning) (col1 Ex.leaning)) <> 0%R).
  { unfold squaredNorm, dot, cross; cbn; lra. }
  split; [exact H | ].
  exact (reset_skew_keeps_xy_and_is_idempotent_exactly Ex.tenth_along_y Ex.leaning H).
Defined.

(** C8 as stated fails in [double].  With a scale of one tenth along Y the
    first reset gives the Z axis (0, 0, 1 - 2^-53) and the second gives
    (0, 0, 1 - 3 * 2^-53). *)
Lemma reset_skew_twice_differs_in_double :
  col2 (reset_skew Ex.tenth_along_y) = mkVec3 0 0 0x1.fffffffffffffp-1
  /\ col2 (reset_skew (reset_skew Ex.tenth_along_y)) = mkVec3 0 0 0x1.ffffffffffffdp-1
  /\ reset_skew (reset_skew Ex.tenth_along_y) <> reset_skew Ex.tenth_along_y.
Proof.
  split; [vm_compute; reflexivity | ].
  split; [vm_compute; reflexivity | ].
  intros H.
  apply (f_equal (fun m => PrimFloat.eqb (vz (col2 m)) 0x1.fffffffffffffp-1)) in H.
  vm_compute in H.
  discriminate H.
Qed.

(** ** C9 *)

(** C9 on a drag of the text onto the plate at (3, 4, 0): the text of both
    instances moves there, the base parts stay. *)
Lemma drag_step_moves_both_texts :
  differs_from_itself (coeff00 (linear (solve_volume_new Ex.text_session (Ex.hit_at 3 4 0) None)))
  = false
  /\ exists st' : State Ex.RaycastManager Ex.AllowVolumes,
       dragging (mouse_position Ex.left_drag) Ex.looking_down
                (Ex.in_drag Ex.text_session Ex.plate) None = Ok (true, st')
       /\ map get_volume_transformation (gl_volumes (canvas st'))
          = [ Transform3_Identity; Ex.at_point 3 4 0; Transform3_Identity; Ex.at_point 3 4 0 ].
Proof.
  split; [vm_compute; reflexivity | ].
  destruct (drag_step_updates_all_instances
              (mouse_position Ex.left_drag) Ex.looking_down (Ex.in_drag Ex.text_session Ex.plate)
              None (sd := Ex.text_session) (h := Ex.hit_at 3 4 0) (dragged := Ex.text_volume))
    as (st' & volume_new & Hstep & _);
    [reflexivity | reflexivity | vm_compute; reflexivity | reflexivity | ].
  exists st'.
  split; [exact Hstep | ].
  apply (f_equal (fun r => match r with
                           | Ok (_, st) => map get_volume_transformation (gl_volumes (canvas st))
                           | Undefined => []
                           end)) in Hstep.
  rewrite <- Hstep.
  vm_compute; reflexivity.
Defined.

(** ** C10 *)

(** C10 on the base part, which has no emboss shape: it is selected and
    hovered and is not the only part of its object, and the start of the
    drag is undefined. *)
Lemma start_dragging_on_base_part_is_undefined :
  emboss_shape Ex.base_part = None
  /\ start_dragging (mouse_position Ex.left_down) Ex.looking_down
                    (Ex.idle Ex.base_canvas Ex.plate) None = Undefined.
Proof.
  split; [reflexivity | ].
  edestruct (start_dragging_reads_emboss_shape_unchecked
               (mouse_position Ex.left_down) Ex.looking_down
               (Ex.idle Ex.base_canvas Ex.plate) None
               (p := 0%nat)
               (gl_vol := Ex.scene_volume 0 0 Transform3_Identity Transform3_Identity)
               (object := Ex.object)
               (instance := mkModelInstance Transform3_Identity)
               (volume := Ex.base_part))
    as [[Hundefined _] _];
    [reflexivity | reflexivity | reflexivity | reflexivity | reflexivity | reflexivity
     | reflexivity | ].
  apply Hundefined.
  reflexivity.
Defined.

(** With an emboss shape the same press starts the drag. *)
Lemma start_dragging_on_text_starts :
  exists st' : State Ex.RaycastManager Ex.AllowVolumes,
    start_dragging (mouse_position Ex.left_down) Ex.looking_down
                   (Ex.idle Ex.text_canvas Ex.plate) None = Ok (true, st')
    /\ option_map (fun sd => (gl_volume sd, exist_hit sd)) (surface_drag st') = Some (1%nat, true)
    /\ moving_enabled (canvas st') = false
    /\ picking_enabled (canvas st') = false
    /\ Ex.actualized (raycast_manager st') = 1%nat.
Proof.
  eexists.
  split; [vm_compute; reflexivity | ].
  repeat split.
Qed.

(** ** The other properties *)

(** A camera that looks down on the text already faces it. *)
Lemma face_to_camera_from_above_is_noop :
  world_matrix_fixed_sel Ex.text_canvas = Ok (Ex.at_point 0 0 5)
  /\ face_selected_volume_to_camera Ex.looking_down Ex.text_canvas = Ok (false, Ex.text_canvas).
Proof.
  split; [vm_compute; reflexivity | ].
  apply (face_to_camera_is_noop_when_facing
           Ex.looking_down Ex.text_canvas (to_world := Ex.at_point 0 0 5));
    vm_compute; reflexivity.
Defined.

(** The press that starts the drag of the text switches moving and picking
    off. *)
Lemma press_on_text_switches_moving_and_picking_off :
  exists st' : State Ex.RaycastManager Ex.AllowVolumes,
    on_mouse_surface_drag Ex.left_down Ex.looking_down (Ex.idle Ex.text_canvas Ex.plate) None
    = Ok (true, st')
    /\ surface_drag st' <> None
    /\ moving_enabled (canvas st') = false /\ picking_enabled (canvas st') = false.
Proof.
  destruct (start_dragging_on_text_starts) as (st' & Hstart & Hsession & _).
  exists st'.
  assert (Hsome : surface_drag st' <> None)
    by (destruct (surface_drag st'); [discriminate | discriminate Hsession]).
  split; [exact Hstart | ].
  split; [exact Hsome | ].
  apply (session_keeps_moving_and_picking_off
           Ex.left_down Ex.looking_down (Ex.idle Ex.text_canvas Ex.plate) None
           (ret := true) (st' := st')).
  - intros H; now destruct H.
  - exact Hstart.
  - exact Hsome.
Defined.

(** A motion over the idle canvas, with or without a button held. *)
Lemma motion_over_idle_canvas_is_ignored :
  surface_drag (Ex.idle Ex.text_canvas Ex.plate) = None
  /\ is_motion (GetEventType Ex.left_drag) = true
  /\ on_mouse_surface_drag Ex.left_drag Ex.looking_down (Ex.idle Ex.text_canvas Ex.plate) None
     = Ok (false, Ex.idle Ex.text_canvas Ex.plate).
Proof.
  split; [reflexivity | ].
  split; [reflexivity | ].
  apply (motion_without_session_is_ignored
           Ex.left_drag Ex.looking_down (Ex.idle Ex.text_canvas Ex.plate) None);
    reflexivity.
Defined.

(* ------------------------------------------------------------------------- *)
(** * More properties of the drag *)

Lemma nth_error_update_nth_other {A : Type} (l : list A) (i j : nat) (f : A -> A) :
  i <> j -> nth_error (update_nth l j f) i = nth_error l i.
Proof.
  revert i j.
  induction l as [ | a l IH]; intros [ | i] [ | j] Hne; cbn; try reflexivity.
  - now destruct Hne.
  - apply IH; congruence.
Qed.

Lemma at_index_nth_error {A : Type} (l : list A) (i : Z) (a : A) :
  at_index l i = Some a -> nth_error l (Z.to_nat i) = Some a.
Proof.
  unfold at_index.
  now destruct (i <? 0)%Z.
Qed.

Lemma at_index_update_nth {A : Type} (l : list A) (i : Z) (f : A -> A) (a : A) :
  at_index l i = Some a -> at_index (update_nth l (Z.to_nat i) f) i = Some (f a).
Proof.
  unfold at_index.
  destruct (i <? 0)%Z; [discriminate | ].
  apply nth_error_update_nth.
Qed.

(** The model volume a scene volume draws, once its transformation is set. *)
Lemma get_model_volume_in_set_transformation
    (gl_vol : GLVolume) (tr : Transform3d) (objects : list ModelObject) (mv : ModelVolume) :
  get_model_volume_in gl_vol objects = Some mv ->
  get_model_volume_in gl_vol (set_model_volume_transformation gl_vol tr objects)
  = Some (set_transformation mv tr).
Proof.
  unfold get_model_volume_in, get_model_object, get_model_volume, set_model_volume_transformation.
  destruct (at_index objects (object_idx gl_vol)) as [o | ] eqn:Hobject; [ | discriminate].
  intros Hvolume.
  rewrite (@at_index_update_nth _ objects (object_idx gl_vol) _ o Hobject).
  cbn [volumes].
  exact (@at_index_update_nth _ (volumes o) (volume_idx gl_vol)
                              (fun mv => set_transformation mv tr) mv Hvolume).
Qed.

Lemma length_update_nth {A : Type} (l : list A) (i : nat) (f : A -> A) :
  List.length (update_nth l i f) = List.length l.
Proof.
  revert i.
  induction l as [ | a l IH]; intros [ | i]; cbn; try reflexivity.
  now rewrite IH.
Qed.

Lemma nth_error_update_nth_cases {A : Type} (l : list A) (i j : nat) (f : A -> A) (a : A) :
  nth_error l j = Some a ->
  nth_error (update_nth l i f) j = Some (if (j =? i)%nat then f a else a).
Proof.
  intros Hj.
  destruct (Nat.eqb_spec j i) as [-> | Hne].
  - now apply nth_error_update_nth.
  - now rewrite nth_error_update_nth_other.
Qed.

(** Setting the transformation of the model volume a scene volume draws
    leaves the rest of the model alone: the objects, their instances, the
    other volumes, and of the volume itself all but its matrix. *)
Lemma set_model_volume_transformation_frame
    (gl_vol : GLVolume) (tr : Transform3d) (objects : list ModelObject)
    (i : nat) (o : ModelObject) :
  nth_error objects i = Some o ->
  exists o' : ModelObject,
    nth_error (set_model_volume_transformation gl_vol tr objects) i = Some o'
    /\ instances o' = instances o
    /\ List.length (volumes o') = List.length (volumes o)
    /\ forall (j : nat) (mv : ModelVolume),
         nth_error (volumes o) j = Some mv ->
         exists mv' : ModelVolume,
           nth_error (volumes o') j = Some mv'
           /\ mv_id mv' = mv_id mv
           /\ emboss_shape mv' = emboss_shape mv
           /\ (i = Z.to_nat (object_idx gl_vol) /\ j = Z.to_nat (volume_idx gl_vol) ->
               mv_matrix mv' = tr)
           /\ (~ (i = Z.to_nat (object_idx gl_vol) /\ j = Z.to_nat (volume_idx gl_vol)) ->
               mv' = mv).
Proof.
  intros Hi.
  unfold set_model_volume_transformation.
  rewrite (@nth_error_update_nth_cases _ objects _ i _ o Hi).
  destruct (Nat.eqb_spec i (Z.to_nat (object_idx gl_vol))) as [Hobject | Hobject].
  - eexists.
    split; [reflexivity | ].
    cbn [instances volumes].
    split; [reflexivity | ].
    split; [apply length_update_nth | ].
    intros j mv Hj.
    rewrite (@nth_error_update_nth_cases _ (volumes o) _ j _ mv Hj).
    destruct (Nat.eqb_spec j (Z.to_nat (volume_idx gl_vol))) as [Hvolume | Hvolume].
    + eexists.
      split; [reflexivity | ].
      cbn [set_transformation mv_id emboss_shape mv_matrix].
      repeat split.
      intros Hnot; now destruct Hnot.
    + exists mv.
      repeat split.
      intros [_ Hj']; now destruct Hvolume.
  - exists o.
    repeat split.
    intros j mv Hj.
    exists mv.
    repeat split; [exact Hj | ].
    intros [Hi' _]; now destruct Hobject.
Qed.

Lemma Forall2_update_all_instances
    (dragged : GLVolume) (volume_new : Transform3d) (vols : list GLVolume) :
  Forall2 (fun vol vol' => vol' = set_volume_transformation vol (get_volume_transformation vol'))
          vols (update_all_instances dragged volume_new vols).
Proof.
  induction vols as [ | vol vols IH]; cbn [update_all_instances map]; constructor.
  - destruct (_ || _); [now destruct vol | reflexivity].
  - exact IH.
Qed.

Lemma Forall2_same_volumes (vols : list GLVolume) :
  Forall2 (fun vol vol' => vol' = set_volume_transformation vol (get_volume_transformation vol'))
          vols vols.
Proof.
  induction vols as [ | vol vols IH]; constructor; [now destruct vol | exact IH].
Qed.

Section MoreProperties.

Context {Camera RaycastManager AllowVolumes Meshes TrKey : Type}.
Context {collaborators : Collaborators Camera RaycastManager AllowVolumes Meshes TrKey}.

(** ** What a drag step leaves alone *)

(** A drag step writes nothing but volume transformations of the scene: it
    returns true, the raycast manager and the model are as they were, and
    so are the selection, the hovered volume, the moving and picking
    switches and the moves done; each scene volume is the one it was but
    for its volume transformation; and the session keeps its offsets, the
    inverse of the instance transformation, the dragged volume, the
    condition and the start angle and distance, while its world
    transformation keeps its translation and its X and Y axes. *)
Theorem dragging_writes_only_volume_transformations
    (mouse_pos : Vec2d) (camera : Camera) (st : State RaycastManager AllowVolumes)
    (up_limit : option double) (ret : bool) (st' : State RaycastManager AllowVolumes) :
  dragging mouse_pos camera st up_limit = Ok (ret, st') ->
  ret = true
  /\ raycast_manager st' = raycast_manager st
  /\ model_objects (canvas st') = model_objects (canvas st)
  /\ get_selection (canvas st') = get_selection (canvas st)
  /\ get_first_hover_volume_idx (canvas st') = get_first_hover_volume_idx (canvas st)
  /\ moving_enabled (canvas st') = moving_enabled (canvas st)
  /\ picking_enabled (canvas st') = picking_enabled (canvas st)
  /\ moves_done (canvas st') = moves_done (canvas st)
  /\ Forall2 (fun vol vol' =>
                vol' = set_volume_transformation vol (get_volume_transformation vol'))
             (gl_volumes (canvas st)) (gl_volumes (canvas st'))
  /\ exists sd sd' : SurfaceDrag AllowVolumes,
       surface_drag st = Some sd
       /\ surface_drag st' = Some sd'
       /\ sd' = set_exist_hit (set_world sd (world sd')) (exist_hit sd')
       /\ translation (world sd') = translation (world sd)
       /\ col0 (linear (world sd')) = col0 (linear (world sd))
       /\ col1 (linear (world sd')) = col1 (linear (world sd)).
Proof.
  unfold dragging.
  destruct (surface_drag st) as [sd | ]; cbn [deref bind]; [ | discriminate].
  destruct (ray_from_camera _ _ _ _) as [h | ];
    [destruct (differs_from_itself _);
       [ | destruct (nth_error _ _) as [dragged | ]; cbn [deref bind]; [ | discriminate]] | ];
    intros H;
    apply Ok_pair_eq in H;
    destruct H as [<- <-];
    cbn [canvas raycast_manager surface_drag set_as_dirty with_volumes model_objects
         get_selection get_first_hover_volume_idx moving_enabled picking_enabled moves_done
         gl_volumes];
    repeat (split; [reflexivity | ]);
    (split; [first [apply Forall2_update_all_instances | apply Forall2_same_volumes] | ]);
    eexists; eexists;
    (split; [reflexivity | ]);
    (split; [reflexivity | ]);
    repeat split.
Qed.

(** ** The start of a drag *)

(** What [start_dragging] returns, in full: it declines and hands the state
    back, or the selected volume is the hovered one, is not the only part
    of its object and has an emboss shape, and the session is the one
    [begin_session] builds. *)
Lemma start_dragging_result
    (mouse_pos : Vec2d) (camera : Camera) (st : State RaycastManager AllowVolumes)
    (up_limit : option double) (ret : bool) (st' : State RaycastManager AllowVolumes) :
  start_dragging mouse_pos camera st up_limit = Ok (ret, st') ->
  (ret = false /\ st' = st)
  \/ (ret = true
      /\ exists (p : nat) (gl_vol : GLVolume) (object : ModelObject) (instance : ModelInstance)
                (volume : ModelVolume) (es : EmbossShape) (sd : SurfaceDrag AllowVolumes),
           get_selected_gl_volume (get_selection (canvas st)) (gl_volumes (canvas st)) = Some p
           /\ nth_error (gl_volumes (canvas st)) p = Some gl_vol
           /\ get_first_hover_volume_idx (canvas st) = Z.of_nat p
           /\ get_model_object gl_vol (model_objects (canvas st)) = Some object
           /\ get_model_instance gl_vol object = Some instance
           /\ get_model_volume gl_vol object = Some volume
           /\ is_the_only_one_part object volume = false
           /\ emboss_shape volume = Some es
           /\ surface_drag st' = Some sd
           /\ canvas st' = enable_picking false (enable_moving false (canvas st))
           /\ raycast_manager st'
              = actualize (raycast_manager st) instance
                          (create_condition (volumes object) (mv_id volume))
                          (create_meshes (canvas st)
                                         (create_condition (volumes object) (mv_id volume)))
           /\ gl_volume sd = p
           /\ exist_hit sd = true
           /\ start_distance sd
              = if use_surface (projection es) then None
                else calc_distance gl_vol (raycast_manager st')
                                   (create_condition (volumes object) (mv_id volume))).
Proof.
  assert (Hdecline : forall P : Prop, Ok (false, st) = Ok (ret, st') ->
                                      (ret = false /\ st' = st) \/ P).
  { intros P H; left; split; congruence. }
  unfold start_dragging.
  destruct (get_selected_gl_volume _ _) as [p | ] eqn:Hsel; [ | apply Hdecline].
  destruct (nth_error (gl_volumes (canvas st)) p) as [gl_vol | ] eqn:Hvol; cbn [deref bind];
    [ | discriminate].
  destruct (Z.ltb_spec (get_first_hover_volume_idx (canvas st)) 0) as [ | Hpos];
    [apply Hdecline | ].
  destruct (_ <=? _)%nat; cbn [orb]; [apply Hdecline | ].
  destruct (Nat.eqb_spec (Z.to_nat (get_first_hover_volume_idx (canvas st))) p) as [Hhover | ];
    cbn [negb]; [ | apply Hdecline].
  destruct (get_model_object _ _) as [object | ] eqn:Hobject; [ | apply Hdecline].
  destruct (get_model_instance gl_vol object) as [instance | ] eqn:Hinstance;
    [ | apply Hdecline].
  destruct (get_model_volume gl_vol object) as [volume | ] eqn:Hvolume; [ | apply Hdecline].
  destruct (is_the_only_one_part object volume) eqn:Honly; [apply Hdecline | ].
  unfold begin_session.
  destruct (emboss_shape volume) as [es | ] eqn:Hes; cbn [deref bind]; [ | discriminate].
  intros H.
  apply Ok_pair_eq in H.
  destruct H as [<- <-].
  right.
  split; [reflexivity | ].
  exists p, gl_vol, object, instance, volume, es.
  eexists.
  cbn [surface_drag canvas raycast_manager].
  repeat (split; [first [reflexivity | assumption | lia] | ]).
  cbn [gl_volume exist_hit start_distance].
  repeat split.
  now destruct (use_surface (projection es)).
Qed.

(** The handler without a session: a motion without a button is ignored,
    a left press goes to [start_dragging], anything else is ignored. *)
Lemma idle_handler_is_start_dragging
    (mouse_event : wxMouseEvent) (camera : Camera) (st : State RaycastManager AllowVolumes)
    (up_limit : option double) :
  surface_drag st = None ->
  on_mouse_surface_drag mouse_event camera st up_limit
  = if LeftDown mouse_event
    then start_dragging (mouse_position mouse_event) camera st up_limit
    else Ok (false, st).
Proof.
  intros Hnone.
  unfold on_mouse_surface_drag.
  rewrite Hnone.
  cbn [has_value andb negb].
  destruct (LeftDown mouse_event) eqn:Hdown.
  - now rewrite (LeftDown_not_Moving _ Hdown).
  - now destruct (Moving mouse_event).
Qed.

(** Without a session the handler reacts to nothing but a left press on the
    selected volume: either it returns false and hands the state back
    untouched, or the event is a left press, the hovered volume is the
    selected one, and all it does is to create the session and to switch
    moving and picking off: no transformation is written, nothing is
    committed, the canvas is not marked dirty. *)
Theorem idle_handler_only_starts_drags
    (mouse_event : wxMouseEvent) (camera : Camera) (st : State RaycastManager AllowVolumes)
    (up_limit : option double) (ret : bool) (st' : State RaycastManager AllowVolumes) :
  surface_drag st = None ->
  on_mouse_surface_drag mouse_event camera st up_limit = Ok (ret, st') ->
  (ret = false /\ st' = st)
  \/ (ret = true
      /\ LeftDown mouse_event = true
      /\ exists (p : nat) (sd : SurfaceDrag AllowVolumes),
           get_selected_gl_volume (get_selection (canvas st)) (gl_volumes (canvas st)) = Some p
           /\ get_first_hover_volume_idx (canvas st) = Z.of_nat p
           /\ surface_drag st' = Some sd
           /\ gl_volume sd = p
           /\ exist_hit sd = true
           /\ canvas st' = enable_picking false (enable_moving false (canvas st))).
Proof.
  intros Hnone.
  rewrite (idle_handler_is_start_dragging _ _ _ _ Hnone).
  destruct (LeftDown mouse_event).
  - intros H.
    destruct (start_dragging_result _ _ _ _ H)
      as [Hdeclined
         | (-> & p & gl_vol & object & instance & volume & es & sd
            & Hsel & _ & Hhover & _ & _ & _ & _ & _ & Hsd & Hcanvas & _ & Hp & Hhit & _)].
    + now left.
    + right.
      split; [reflexivity | ].
      split; [reflexivity | ].
      exists p, sd.
      repeat split; assumption.
  - intros H.
    apply Ok_pair_eq in H.
    left; split; [symmetry | symmetry]; apply H.
Qed.

(** A press and a release without a motion in between commit a move: after
    the press that starts a drag, any event that is not a drag motion ends
    it with one call of [do_move], labelled "Move over surface", although
    every scene volume is the one of before the press; and moving and
    picking end switched on, whatever they were before the press. *)
Theorem press_then_release_commits_an_unmoved_scene
    (press release : wxMouseEvent) (camera : Camera)
    (st st1 : State RaycastManager AllowVolumes) (up_limit : option double) :
  surface_drag st = None ->
  on_mouse_surface_drag press camera st up_limit = Ok (true, st1) ->
  Dragging release = false ->
  exists st2 : State RaycastManager AllowVolumes,
    on_mouse_surface_drag release camera st1 up_limit = Ok (LeftUp release, st2)
    /\ surface_drag st2 = None
    /\ gl_volumes (canvas st2) = gl_volumes (canvas st)
    /\ moves_done (canvas st2) = "Move over surface"%string :: moves_done (canvas st)
    /\ moving_enabled (canvas st2) = true
    /\ picking_enabled (canvas st2) = true.
Proof.
  intros Hnone Hpress Hrelease.
  rewrite (idle_handler_is_start_dragging _ _ _ _ Hnone) in Hpress.
  destruct (LeftDown press); [ | apply Ok_pair_eq in Hpress; now destruct Hpress].
  destruct (start_dragging_result _ _ _ _ Hpress)
    as [[Hfalse _]
       | (_ & p & gl_vol & object & instance & volume & es & sd
          & _ & _ & _ & _ & _ & _ & _ & _ & Hsd & Hcanvas & _)];
    [discriminate | ].
  unfold on_mouse_surface_drag.
  rewrite Hsd, Hrelease, Hcanvas.
  cbn [has_value andb negb].
  eexists.
  split; [reflexivity | ].
  repeat split.
Qed.

(** The session's volume stays in the scene.  If the dragged volume of the
    session, when there is one, is a volume of the scene, then with a
    session the handler is defined for every event (no drag step reads a
    volume that is not there), and after any event the dragged volume of
    the session, when there is one, is again a volume of the scene. *)
Theorem session_volume_stays_in_the_scene
    (mouse_event : wxMouseEvent) (camera : Camera) (st : State RaycastManager AllowVolumes)
    (up_limit : option double) :
  (forall sd : SurfaceDrag AllowVolumes,
     surface_drag st = Some sd ->
     nth_error (gl_volumes (canvas st)) (gl_volume sd) <> None) ->
  (surface_drag st <> None ->
   on_mouse_surface_drag mouse_event camera st up_limit <> Undefined)
  /\ (forall (ret : bool) (st' : State RaycastManager AllowVolumes)
             (sd' : SurfaceDrag AllowVolumes),
        on_mouse_surface_drag mouse_event camera st up_limit = Ok (ret, st') ->
        surface_drag st' = Some sd' ->
        nth_error (gl_volumes (canvas st')) (gl_volume sd') <> None).
Proof.
  intros Hvalid.
  destruct (surface_drag st) as [sd | ] eqn:Hsd.
  - (* a session: the event ends the drag, or is a drag step *)
    specialize (Hvalid sd eq_refl).
    unfold on_mouse_surface_drag.
    rewrite Hsd.
    cbn [has_value andb negb].
    destruct (Dragging mouse_event) eqn:Hdrag; cbn [negb].
    + rewrite (Dragging_not_Moving _ Hdrag), (Dragging_not_LeftDown _ Hdrag).
      unfold dragging.
      rewrite Hsd.
      cbn [deref bind].
      destruct (ray_from_camera _ _ _ _) as [h | ];
        [destruct (differs_from_itself _) | ].
      * split; [discriminate | ].
        intros ret st' sd' H Hsd'.
        apply Ok_pair_eq in H.
        destruct H as [_ <-].
        cbn [surface_drag canvas] in *.
        apply Some_eq in Hsd'.
        now subst sd'.
      * cbn [set_exist_hit set_world gl_volume].
        destruct (nth_error (gl_volumes (canvas st)) (gl_volume sd)) as [dragged | ] eqn:Hdragged;
          [ | now destruct Hvalid].
        cbn [deref bind].
        split; [discriminate | ].
        intros ret st' sd' H Hsd'.
        apply Ok_pair_eq in H.
        destruct H as [_ <-].
        cbn [surface_drag canvas set_as_dirty with_volumes gl_volumes] in *.
        apply Some_eq in Hsd'.
        subst sd'.
        cbn [gl_volume set_world set_exist_hit].
        unfold update_all_instances.
        now rewrite nth_error_map, Hdragged.
      * split; [discriminate | ].
        intros ret st' sd' H Hsd'.
        apply Ok_pair_eq in H.
        destruct H as [_ <-].
        cbn [surface_drag canvas set_as_dirty gl_volumes] in *.
        apply Some_eq in Hsd'.
        now subst sd'.
    + split; [discriminate | ].
      intros ret st' sd' H Hsd'.
      apply Ok_pair_eq in H.
      destruct H as [_ <-].
      discriminate Hsd'.
  - (* no session: only a press can create one, for the selected volume *)
    split; [intros Hsome; now destruct Hsome | ].
    intros ret st' sd'.
    rewrite (idle_handler_is_start_dragging _ _ _ _ Hsd).
    destruct (LeftDown mouse_event).
    + intros H Hsd'.
      destruct (start_dragging_result _ _ _ _ H)
        as [[_ ->]
           | (_ & p & gl_vol & object & instance & volume & es & sd
              & _ & Hvol & _ & _ & _ & _ & _ & _ & Hsession & Hcanvas & _ & Hp & _)].
      * congruence.
      * rewrite Hsession in Hsd'.
        apply Some_eq in Hsd'.
        subst sd'.
        rewrite Hcanvas, Hp.
        cbn [gl_volumes enable_picking enable_moving].
        now rewrite Hvol.
    + intros H Hsd'.
      apply Ok_pair_eq in H.
      destruct H as [_ <-].
      congruence.
Qed.

(** The distance a drag starts with is the one [calc_distance] measures
    from the canvas: for a text that does not use the surface, the
    session's start distance is what [calc_distance(gl_volume, raycaster,
    canvas)] returns for the selected volume, and the raycast manager is
    left as that call leaves it; for a text that uses the surface there is
    no start distance. *)
Theorem start_distance_is_calc_distance
    (mouse_pos : Vec2d) (camera : Camera) (st : State RaycastManager AllowVolumes)
    (up_limit : option double) (st' : State RaycastManager AllowVolumes) :
  start_dragging mouse_pos camera st up_limit = Ok (true, st') ->
  exists (p : nat) (gl_vol : GLVolume) (volume : ModelVolume) (es : EmbossShape)
         (sd : SurfaceDrag AllowVolumes),
    get_selected_gl_volume (get_selection (canvas st)) (gl_volumes (canvas st)) = Some p
    /\ nth_error (gl_volumes (canvas st)) p = Some gl_vol
    /\ get_model_volume_in gl_vol (model_objects (canvas st)) = Some volume
    /\ emboss_shape volume = Some es
    /\ surface_drag st' = Some sd
    /\ raycast_manager st'
       = snd (calc_distance_canvas gl_vol (raycast_manager st) (canvas st))
    /\ start_distance sd
       = if use_surface (projection es) then None
         else fst (calc_distance_canvas gl_vol (raycast_manager st) (canvas st)).
Proof.
  intros H.
  destruct (start_dragging_result _ _ _ _ H)
    as [[Hfalse _]
       | (_ & p & gl_vol & object & instance & volume & es & sd
          & Hsel & Hvol & _ & Hobject & Hinstance & Hvolume & Honly & Hes
          & Hsd & _ & Hrm & _ & _ & Hdistance)];
    [discriminate | ].
  exists p, gl_vol, volume, es, sd.
  assert (Hcanvas : calc_distance_canvas gl_vol (raycast_manager st) (canvas st)
                    = (calc_distance gl_vol (raycast_manager st')
                                     (create_condition (volumes object) (mv_id volume)),
                       raycast_manager st')).
  { unfold calc_distance_canvas.
    now rewrite Hobject, Hinstance, Hvolume, Honly, Hrm. }
  rewrite Hcanvas.
  cbn [fst snd].
  repeat split; try assumption.
  unfold get_model_volume_in.
  now rewrite Hobject.
Qed.

(** ** Facing the camera *)

(** When facing the camera turns the volume, it writes one transformation
    into one scene volume and into the model volume that volume draws, and
    nothing else: the scene volume is the first selected one, every other
    scene volume is as it was (also those that draw the same model volume
    in other instances), scene and model hold the same transformation, the
    model has the objects it had, each with the instances it had and with
    the volumes it had, of which only the one the scene volume draws has
    changed, and only in its matrix; and no move is committed. *)
Theorem face_to_camera_turns_one_volume
    (camera : Camera) (c c' : GLCanvas3D) :
  face_selected_volume_to_camera camera c = Ok (true, c') ->
  exists (idx : nat) (gl_vol : GLVolume) (res : Transform3d),
    hd_error (get_volume_idxs (get_selection c)) = Some idx
    /\ nth_error (gl_volumes c) idx = Some gl_vol
    /\ nth_error (gl_volumes c') idx = Some (set_volume_transformation gl_vol res)
    /\ (forall i : nat, i <> idx -> nth_error (gl_volumes c') i = nth_error (gl_volumes c) i)
    /\ option_map mv_matrix (get_model_volume_in gl_vol (model_objects c')) = Some res
    /\ List.length (model_objects c') = List.length (model_objects c)
    /\ (forall (i : nat) (o : ModelObject),
          nth_error (model_objects c) i = Some o ->
          exists o' : ModelObject,
            nth_error (model_objects c') i = Some o'
            /\ instances o' = instances o
            /\ List.length (volumes o') = List.length (volumes o)
            /\ forall (j : nat) (mv : ModelVolume),
                 nth_error (volumes o) j = Some mv ->
                 exists mv' : ModelVolume,
                   nth_error (volumes o') j = Some mv'
                   /\ mv_id mv' = mv_id mv
                   /\ emboss_shape mv' = emboss_shape mv
                   /\ (i = Z.to_nat (object_idx gl_vol) /\ j = Z.to_nat (volume_idx gl_vol) ->
                       mv_matrix mv' = res)
                   /\ (~ (i = Z.to_nat (object_idx gl_vol)
                          /\ j = Z.to_nat (volume_idx gl_vol)) ->
                       mv' = mv))
    /\ get_selection c' = get_selection c
    /\ get_first_hover_volume_idx c' = get_first_hover_volume_idx c
    /\ moving_enabled c' = moving_enabled c
    /\ picking_enabled c' = picking_enabled c
    /\ dirty c' = dirty c
    /\ moves_done c' = moves_done c.
Proof.
  unfold face_selected_volume_to_camera.
  destruct (sel_is_empty _); [intros H; apply Ok_pair_eq in H; now destruct H | ].
  destruct (world_matrix_fixed_sel c) as [to_world | ]; cbn [bind]; [ | discriminate].
  destruct (is_approx_vec _ emboss_dir);
    [intros H; apply Ok_pair_eq in H; now destruct H | ].
  destruct (hd_error _) as [idx | ]; cbn [deref bind]; [ | discriminate].
  destruct (nth_error (gl_volumes c) idx) as [gl_vol | ] eqn:Hvol; cbn [deref bind];
    [ | discriminate].
  change (get_model_volume_in (set_volume_transformation gl_vol ?tr) (model_objects c))
    with (get_model_volume_in gl_vol (model_objects c)).
  destruct (get_model_volume_in gl_vol (model_objects c)) as [mv | ] eqn:Hmv;
    cbn [deref bind]; [ | discriminate].
  intros H.
  apply Ok_pair_eq in H.
  destruct H as [_ <-].
  exists idx, gl_vol.
  eexists.
  split; [reflexivity | ].
  split; [exact Hvol | ].
  cbn [gl_volumes model_objects with_objects with_volumes get_selection
       get_first_hover_volume_idx moving_enabled picking_enabled dirty moves_done].
  split; [now rewrite (nth_error_update_nth _ _ _ Hvol) | ].
  split; [intros i Hi; now apply nth_error_update_nth_other | ].
  change (set_model_volume_transformation (set_volume_transformation gl_vol ?tr) ?tr'
                                          (model_objects c))
    with (set_model_volume_transformation gl_vol tr' (model_objects c)).
  split; [now rewrite (get_model_volume_in_set_transformation _ _ _ Hmv) | ].
  split; [apply length_update_nth | ].
  split; [intros i o Hi; now apply set_model_volume_transformation_frame | ].
  repeat split.
Qed.

(** ** The turn, in exact arithmetic *)

Lemma real_mat_vec_mul (a b : Matrix3 R) (v : Vec3 R) :
  mat_vec (mat_mul a b) v = mat_vec a (mat_vec b v).
Proof.
  destruct a as [[a11 a21 a31] [a12 a22 a32] [a13 a23 a33]].
  destruct b as [[b11 b21 b31] [b12 b22 b32] [b13 b23 b33]].
  destruct v as [v1 v2 v3].
  unfold mat_mul, mat_vec, vadd, vscale.
  cbn [col0 col1 col2 vx vy vz s_add s_mul real_scalar].
  f_equal; ring.
Qed.

Lemma real_mat_vec_add (a : Matrix3 R) (u v : Vec3 R) :
  mat_vec a (vadd u v) = vadd (mat_vec a u) (mat_vec a v).
Proof.
  destruct a as [[a11 a21 a31] [a12 a22 a32] [a13 a23 a33]].
  destruct u as [u1 u2 u3], v as [v1 v2 v3].
  unfold mat_vec, vadd, vscale.
  cbn [col0 col1 col2 vx vy vz s_add s_mul real_scalar].
  f_equal; ring.
Qed.

Lemma real_vadd_assoc (u v w : Vec3 R) : vadd (vadd u v) w = vadd u (vadd v w).
Proof.
  destruct u as [u1 u2 u3], v as [v1 v2 v3], w as [w1 w2 w3].
  unfold vadd.
  cbn [vx vy vz s_add real_scalar].
  f_equal; ring.
Qed.

Lemma real_tr_apply_mul (a b : Transform3 R) (v : Vec3 R) :
  tr_apply (tr_mul a b) v = tr_apply a (tr_apply b v).
Proof.
  unfold tr_apply, tr_mul.
  cbn [linear translation].
  unfold tr_apply.
  now rewrite real_mat_vec_mul, real_mat_vec_add, real_vadd_assoc.
Qed.

Lemma real_mat_mul_identity (m : Matrix3 R) : mat_mul m Matrix3_Identity = m.
Proof.
  destruct m as [[a11 a21 a31] [a12 a22 a32] [a13 a23 a33]].
  unfold mat_mul, mat_vec, vadd, vscale, Matrix3_Identity, Vec3_UnitX, Vec3_UnitY, Vec3_UnitZ.
  cbn [col0 col1 col2 vx vy vz s_add s_mul s_zero s_one real_scalar].
  f_equal; f_equal; ring.
Qed.

Lemma real_tr_apply_identity (v : Vec3 R) : tr_apply Transform3_Identity v = v.
Proof.
  destruct v as [v1 v2 v3].
  unfold tr_apply, mat_vec, vadd, vscale, Transform3_Identity, Matrix3_Identity,
    Vec3_Zero, Vec3_UnitX, Vec3_UnitY, Vec3_UnitZ.
  cbn [linear translation col0 col1 col2 vx vy vz s_add s_mul s_zero s_one real_scalar].
  f_equal; ring.
Qed.

Lemma real_tr_apply_zero (tr : Transform3 R) : tr_apply tr Vec3_Zero = translation tr.
Proof.
  destruct tr as [[[a11 a21 a31] [a12 a22 a32] [a13 a23 a33]] [t1 t2 t3]].
  unfold tr_apply, mat_vec, vadd, vscale, Vec3_Zero.
  cbn [linear translation col0 col1 col2 vx vy vz s_add s_mul s_zero real_scalar].
  f_equal; ring.
Qed.

Lemma real_translate_back (v : Vec3 R) : tr_apply (Translation3 (vopp v)) v = Vec3_Zero.
Proof.
  destruct v as [v1 v2 v3].
  unfold tr_apply, mat_vec, vadd, vscale, vopp, Translation3, Matrix3_Identity, Vec3_Zero,
    Vec3_UnitX, Vec3_UnitY, Vec3_UnitZ.
  cbn [linear translation col0 col1 col2 vx vy vz s_add s_mul s_opp s_zero s_one real_scalar].
  f_equal; ring.
Qed.

(** The turn of [face_selected_volume_to_camera] is a turn about the
    volume's own origin.  The code's [rotate_keeping_offset] is the
    computation [rotate_keeping_offset_with] at [double] with Eigen's
    inverse; in exact arithmetic, with an inverse that is one for the
    rotation, the result has the linear part of [vol_tr * vol_rot] and the
    translation of [vol_tr], and for a rotation without a translation it is
    [vol_tr * vol_rot], the line the code has commented out. *)
Theorem rotate_keeping_offset_turns_about_the_origin_exactly
    (vol_tr_d vol_rot_d : Transform3d)
    (inv : Transform3 R -> Transform3 R) (vol_tr vol_rot : Transform3 R) :
  tr_mul vol_rot (inv vol_rot) = Transform3_Identity ->
  rotate_keeping_offset vol_tr_d vol_rot_d
  = rotate_keeping_offset_with inverse vol_tr_d vol_rot_d
  /\ rotate_keeping_offset_with inv vol_tr vol_rot
     = mkTransform3 (mat_mul (linear vol_tr) (linear vol_rot)) (translation vol_tr)
  /\ (translation vol_rot = Vec3_Zero ->
      rotate_keeping_offset_with inv vol_tr vol_rot = tr_mul vol_tr vol_rot).
Proof.
  intros Hinv.
  split; [reflexivity | ].
  assert (Hturn : rotate_keeping_offset_with inv vol_tr vol_rot
                  = mkTransform3 (mat_mul (linear vol_tr) (linear vol_rot))
                                 (translation vol_tr)).
  { unfold rotate_keeping_offset_with.
    unfold tr_mul at 1.
    f_equal.
    - unfold tr_mul, Translation3.
      cbn [linear].
      now rewrite !real_mat_mul_identity.
    - cbn [translation Translation3].
      rewrite !real_tr_apply_mul.
      rewrite <- (real_tr_apply_mul vol_rot (inv vol_rot)), Hinv, real_tr_apply_identity.
      now rewrite real_translate_back, real_tr_apply_zero. }
  split; [exact Hturn | ].
  intros Hzero.
  rewrite Hturn.
  unfold tr_mul.
  now rewrite Hzero, real_tr_apply_zero.
Qed.

End MoreProperties.

(** ** The offset onto the surface *)

Section SurfaceOffsetProperties.

Context {Camera RaycastManager AllowVolumes Meshes TrKey SkipVolume : Type}.
Context {collaborators : Collaborators Camera RaycastManager AllowVolumes Meshes TrKey}.
Context {skip_raycast : SkipRaycast RaycastManager TrKey SkipVolume}.

(** An offset [calc_surface_offset] returns leads from the origin of the
    selected volume to a point of another volume: the raycast manager has
    been brought up to date for the volume's instance, skipping the volume
    itself; the point is the hit of the ray from the origin against the
    volume's Z axis when there is one, and the closest point only when the
    ray hits nothing; its squared distance is not below [EPSILON]; and the
    offset is that point, brought into the world, minus the origin, in the
    volume's coordinates. *)
Theorem calc_surface_offset_leads_to_the_hit
    (c : GLCanvas3D) (raycast_manager raycast_manager' : RaycastManager) (offset : Vec3d) :
  calc_surface_offset c raycast_manager = Ok (Some offset, raycast_manager') ->
  exists (p : nat) (gl_volume : GLVolume) (volume : ModelVolume) (instance : ModelInstance)
         (key : TrKey) (at_ : Vec3d) (distance_sq : double),
    get_selected_gl_volume (get_selection c) (gl_volumes c) = Some p
    /\ nth_error (gl_volumes c) p = Some gl_volume
    /\ get_model_volume_in gl_volume (model_objects c) = Some volume
    /\ get_model_instance_in gl_volume (model_objects c) = Some instance
    /\ raycast_manager' = actualize_skip raycast_manager instance (skip_volume (mv_id volume))
    /\ (let to_world := world_matrix_fixed gl_volume (model_objects c) in
        let ray := closest_hit_skip raycast_manager' (translation to_world)
                                    (vopp (get_z_base to_world)) (skip_volume (mv_id volume)) in
        (exists normal_ : Vec3d, ray = Some (mkHit at_ normal_ key distance_sq))
        \/ (ray = None
            /\ closest raycast_manager' (translation to_world)
               = Some (mkClosePoint key at_ distance_sq)))
    /\ PrimFloat.ltb distance_sq EPSILON = false
    /\ offset
       = offset_in_volume inverse (world_matrix_fixed gl_volume (model_objects c))
                          (tr_apply (get_transformation raycast_manager' key) at_).
Proof.
  unfold calc_surface_offset.
  destruct (get_selected_gl_volume _ _) as [p | ] eqn:Hsel; [ | discriminate].
  destruct (nth_error (gl_volumes c) p) as [gl_volume | ] eqn:Hvol; cbn [deref bind];
    [ | discriminate].
  destruct (get_model_volume_in gl_volume (model_objects c)) as [volume | ] eqn:Hvolume;
    [ | discriminate].
  destruct (get_model_instance_in gl_volume (model_objects c)) as [instance | ] eqn:Hinstance;
    [ | discriminate].
  destruct (closest_hit_skip _ _ _ _) as [[at_ normal_ key distance_sq] | ] eqn:Hray.
  - cbn [squared_distance tr_key position].
    destruct (PrimFloat.ltb distance_sq EPSILON) eqn:Hfar; [discriminate | ].
    intros H.
    apply Ok_pair_eq in H.
    destruct H as [Hoffset <-].
    apply Some_eq in Hoffset.
    exists p, gl_volume, volume, instance, key, at_, distance_sq.
    repeat (split; [first [reflexivity | assumption] | ]).
    split; [left; exists normal_; exact Hray | ].
    split; [exact Hfar | now symmetry].
  - destruct (closest _ _) as [[key at_ distance_sq] | ] eqn:Hclosest; [ | discriminate].
    cbn [cp_squared_distance cp_tr_key point].
    destruct (PrimFloat.ltb distance_sq EPSILON) eqn:Hfar; [discriminate | ].
    intros H.
    apply Ok_pair_eq in H.
    destruct H as [Hoffset <-].
    apply Some_eq in Hoffset.
    exists p, gl_volume, volume, instance, key, at_, distance_sq.
    repeat (split; [first [reflexivity | assumption] | ]).
    split; [right; split; [exact Hray | exact Hclosest] | ].
    split; [exact Hfar | now symmetry].
Qed.

End SurfaceOffsetProperties.

(** In exact arithmetic the offset does what it is computed for: moved by
    it, in its own coordinates, the origin of the volume lands on the point
    that was hit, whenever the inverse is one for the linear part of the
    volume's world transformation. *)
Theorem offset_in_volume_reaches_the_hit_exactly
    (inv : Transform3 R -> Transform3 R) (to_world : Transform3 R) (hit_world : Vec3 R) :
  mat_mul (linear to_world) (linear (inv to_world)) = Matrix3_Identity ->
  tr_apply to_world (offset_in_volume inv to_world hit_world) = hit_world.
Proof.
  intros Hinv.
  unfold offset_in_volume, tr_apply.
  rewrite <- real_mat_vec_mul, Hinv.
  destruct to_world as [l [t1 t2 t3]], hit_world as [h1 h2 h3].
  unfold mat_vec, vadd, vsub, vscale, Matrix3_Identity, Vec3_UnitX, Vec3_UnitY, Vec3_UnitZ.
  cbn [linear translation col0 col1 col2 vx vy vz s_add s_sub s_mul s_zero s_one real_scalar].
  f_equal; ring.
Qed.

(* ------------------------------------------------------------------------- *)
(** * More properties on the scene *)

(** A drag step of the text onto the plate leaves the raycast manager and
    the model alone and commits nothing. *)
Lemma drag_onto_plate_writes_only_the_scene :
  exists st' : State Ex.RaycastManager Ex.AllowVolumes,
    dragging (mouse_position Ex.left_drag) Ex.looking_down
             (Ex.in_drag Ex.text_session Ex.plate) None = Ok (true, st')
    /\ raycast_manager st' = Ex.plate
    /\ model_objects (canvas st') = [Ex.object]
    /\ moves_done (canvas st') = [].
Proof.
  assert (Hstep : exists st' : State Ex.RaycastManager Ex.AllowVolumes,
             dragging (mouse_position Ex.left_drag) Ex.looking_down
                      (Ex.in_drag Ex.text_session Ex.plate) None = Ok (true, st'))
    by (eexists; vm_compute; reflexivity).
  destruct Hstep as [st' Hstep].
  exists st'.
  split; [exact Hstep | ].
  destruct (dragging_writes_only_volume_transformations _ _ _ _ Hstep)
    as (_ & Hrm & Hmodel & _ & _ & _ & _ & Hmoves & _).
  rewrite Hrm, Hmodel, Hmoves.
  repeat split.
Defined.

(** A left press on the text, selected and hovered, creates the session and
    switches moving and picking off, and that is all. *)
Lemma press_on_text_only_starts_the_drag :
  exists st' : State Ex.RaycastManager Ex.AllowVolumes,
    on_mouse_surface_drag Ex.left_down Ex.looking_down (Ex.idle Ex.text_canvas Ex.plate) None
    = Ok (true, st')
    /\ canvas st' = enable_picking false (enable_moving false Ex.text_canvas).
Proof.
  assert (Hpress : exists st' : State Ex.RaycastManager Ex.AllowVolumes,
             on_mouse_surface_drag Ex.left_down Ex.looking_down
                                   (Ex.idle Ex.text_canvas Ex.plate) None = Ok (true, st'))
    by (eexists; vm_compute; reflexivity).
  destruct Hpress as [st' Hpress].
  exists st'.
  split; [exact Hpress | ].
  destruct (idle_handler_only_starts_drags
              Ex.left_down Ex.looking_down (Ex.idle Ex.text_canvas Ex.plate) None
              eq_refl Hpress)
    as [[Hfalse _] | (_ & _ & p & sd & _ & _ & _ & _ & _ & Hcanvas)];
    [discriminate Hfalse | exact Hcanvas].
Defined.

(** A click on the text, a left press and a left release, calls [do_move]
    on a scene that has not moved. *)
Lemma click_on_text_commits_a_move :
  exists st1 st2 : State Ex.RaycastManager Ex.AllowVolumes,
    on_mouse_surface_drag Ex.left_down Ex.looking_down (Ex.idle Ex.text_canvas Ex.plate) None
    = Ok (true, st1)
    /\ on_mouse_surface_drag Ex.left_up Ex.looking_down st1 None = Ok (true, st2)
    /\ surface_drag st2 = None
    /\ gl_volumes (canvas st2) = Ex.scene_volumes
    /\ moves_done (canvas st2) = ["Move over surface"%string].
Proof.
  assert (Hpress : exists st1 : State Ex.RaycastManager Ex.AllowVolumes,
             on_mouse_surface_drag Ex.left_down Ex.looking_down
                                   (Ex.idle Ex.text_canvas Ex.plate) None = Ok (true, st1))
    by (eexists; vm_compute; reflexivity).
  destruct Hpress as [st1 Hpress].
  destruct (press_then_release_commits_an_unmoved_scene
              Ex.left_down Ex.left_up Ex.looking_down (Ex.idle Ex.text_canvas Ex.plate) None
              eq_refl Hpress eq_refl)
    as (st2 & Hrelease & Hsession & Hvolumes & Hmoves & _).
  exists st1, st2.
  repeat split; assumption.
Defined.

(** The press on the text above the shelf: the drag starts with the
    distance [calc_distance] measures from the canvas. *)
Lemma start_distance_above_shelf :
  exists (st' : State Ex.RaycastManager Ex.AllowVolumes) (sd : SurfaceDrag Ex.AllowVolumes),
    start_dragging (mouse_position Ex.left_down) Ex.looking_down
                   (Ex.idle Ex.text_canvas Ex.shelf) None = Ok (true, st')
    /\ surface_drag st' = Some sd
    /\ raycast_manager st' = snd (calc_distance_canvas Ex.text_volume Ex.shelf Ex.text_canvas)
    /\ start_distance sd = fst (calc_distance_canvas Ex.text_volume Ex.shelf Ex.text_canvas).
Proof.
  assert (Hstart : exists st' : State Ex.RaycastManager Ex.AllowVolumes,
             start_dragging (mouse_position Ex.left_down) Ex.looking_down
                            (Ex.idle Ex.text_canvas Ex.shelf) None = Ok (true, st'))
    by (eexists; vm_compute; reflexivity).
  destruct Hstart as [st' Hstart].
  destruct (start_distance_is_calc_distance _ _ _ _ Hstart)
    as (p & gl_vol & volume & es & sd & Hsel & Hvol & Hvolume & Hes & Hsd & Hrm & Hdistance).
  assert (Hp : 1%nat = p) by (apply Some_eq; rewrite <- Hsel; reflexivity).
  subst p.
  assert (Hgl : Ex.text_volume = gl_vol) by (apply Some_eq; rewrite <- Hvol; reflexivity).
  subst gl_vol.
  assert (Hpart : Ex.text_part = volume) by (apply Some_eq; rewrite <- Hvolume; reflexivity).
  subst volume.
  assert (Hshape : Ex.text_shape = es) by (apply Some_eq; rewrite <- Hes; reflexivity).
  subst es.
  exists st', sd.
  repeat split; assumption.
Defined.

(** Seen from behind, the text of the first instance is turned: the text of
    the second instance, which draws the same model volume, is not, and no
    move is committed. *)
Lemma face_to_camera_from_behind_turns_one_text :
  exists c' : GLCanvas3D,
    face_selected_volume_to_camera Ex.looking_up Ex.text_canvas = Ok (true, c')
    /\ nth_error (gl_volumes c') 3 = nth_error Ex.scene_volumes 3
    /\ option_map (fun vol => Some (get_volume_transformation vol))
                  (nth_error (gl_volumes c') 1)
       = Some (option_map mv_matrix (get_model_volume_in Ex.text_volume (model_objects c')))
    /\ moves_done c' = [].
Proof.
  assert (Hturn : exists c' : GLCanvas3D,
             face_selected_volume_to_camera Ex.looking_up Ex.text_canvas = Ok (true, c'))
    by (eexists; vm_compute; reflexivity).
  destruct Hturn as [c' Hturn].
  exists c'.
  split; [exact Hturn | ].
  destruct (face_to_camera_turns_one_volume _ _ Hturn)
    as (idx & gl_vol & res & Hidx & Hvol & Hscene & Hothers & Hmodel & _ & _
        & _ & _ & _ & _ & _ & Hmoves).
  assert (Hone : 1%nat = idx) by (apply Some_eq; rewrite <- Hidx; reflexivity).
  subst idx.
  assert (Hgl : Ex.text_volume = gl_vol) by (apply Some_eq; rewrite <- Hvol; reflexivity).
  subst gl_vol.
  split; [apply Hothers; discriminate | ].
  split; [now rewrite Hscene, Hmodel | exact Hmoves].
Defined.

Lemma quarter_about_y_has_cofactor_inverse :
  tr_mul ExOffset.quarter_about_y (ExOffset.cofactor_inverse_of ExOffset.quarter_about_y)
  = Transform3_Identity.
Proof.
  cbv [ExOffset.quarter_about_y ExOffset.cofactor_inverse_of tr_mul tr_apply mat_mul
       mat_vec vadd vscale vdiv vopp cross dot Transform3_Identity Matrix3_Identity
       Vec3_Zero Vec3_UnitX Vec3_UnitY Vec3_UnitZ
       linear translation col0 col1 col2 vx vy vz
       s_add s_sub s_mul s_div s_opp s_zero s_one real_scalar].
  f_equal; [f_equal | ]; f_equal; field.
Qed.

(** A quarter turn about Y of a volume placed at (1, 2, 3): the turn is
    about the volume's origin, and is the product of the two transforms. *)
Lemma quarter_turn_about_the_origin :
  rotate_keeping_offset_with ExOffset.cofactor_inverse_of
                             ExOffset.doubled_at_1_2_3 ExOffset.quarter_about_y
  = tr_mul ExOffset.doubled_at_1_2_3 ExOffset.quarter_about_y.
Proof.
  apply (rotate_keeping_offset_turns_about_the_origin_exactly
           (collaborators := Ex.collaborators)
           Transform3_Identity Transform3_Identity
           ExOffset.cofactor_inverse_of ExOffset.doubled_at_1_2_3
           quarter_about_y_has_cofactor_inverse).
  reflexivity.
Defined.

(** The text above the base, when the ray hits nothing: the offset leads to
    the closest point. *)
Lemma surface_offset_to_closest_point :
  exists (offset : Vec3d) (raycast_manager' : Ex.RaycastManager)
         (key : Ex.TrKey) (at_ : Vec3d) (distance_sq : double),
    calc_surface_offset Ex.text_canvas Ex.off_plate = Ok (Some offset, raycast_manager')
    /\ closest raycast_manager' (translation (world_matrix_fixed Ex.text_volume [Ex.object]))
       = Some (mkClosePoint key at_ distance_sq)
    /\ PrimFloat.ltb distance_sq EPSILON = false
    /\ offset
       = offset_in_volume inverse (world_matrix_fixed Ex.text_volume [Ex.object])
                          (tr_apply (get_transformation raycast_manager' key) at_).
Proof.
  assert (Hoffset : exists (offset : Vec3d) (raycast_manager' : Ex.RaycastManager),
             calc_surface_offset Ex.text_canvas Ex.off_plate
             = Ok (Some offset, raycast_manager'))
    by (eexists; eexists; vm_compute; reflexivity).
  destruct Hoffset as (offset & raycast_manager' & Hoffset).
  destruct (calc_surface_offset_leads_to_the_hit _ _ Hoffset)
    as (p & gl_volume & volume & instance & key & at_ & distance_sq
        & Hsel & Hvol & _ & _ & Hrm & Htarget & Hfar & Hresult).
  assert (Hp : 1%nat = p) by (apply Some_eq; rewrite <- Hsel; reflexivity).
  subst p.
  assert (Hgl : Ex.text_volume = gl_volume) by (apply Some_eq; rewrite <- Hvol; reflexivity).
  subst gl_volume.
  exists offset, raycast_manager', key, at_, distance_sq.
  split; [exact Hoffset | ].
  split; [ | split; [exact Hfar | exact Hresult]].
  destruct Htarget as [[normal_ Hray] | [_ Hclosest]]; [ | exact Hclosest].
  rewrite Hrm in Hray.
  lazy in Hray.
  discriminate Hray.
Defined.

Lemma doubled_at_1_2_3_has_cofactor_inverse :
  mat_mul (linear ExOffset.doubled_at_1_2_3)
          (linear (ExOffset.cofactor_inverse_of ExOffset.doubled_at_1_2_3))
  = Matrix3_Identity.
Proof.
  cbv [ExOffset.doubled_at_1_2_3 ExOffset.cofactor_inverse_of mat_mul
       mat_vec vadd vscale vdiv vopp cross dot Matrix3_Identity
       Vec3_UnitX Vec3_UnitY Vec3_UnitZ
       linear translation col0 col1 col2 vx vy vz
       s_add s_sub s_mul s_div s_opp s_zero s_one real_scalar].
  f_equal; f_equal; field.
Qed.

(** The volume placed at (1, 2, 3), moved by the offset to (5, 2, 3),
    lands on (5, 2, 3). *)
Lemma offset_reaches_5_2_3 :
  tr_apply ExOffset.doubled_at_1_2_3
           (offset_in_volume ExOffset.cofactor_inverse_of ExOffset.doubled_at_1_2_3
                             (mkVec3 5%R 2%R 3%R))
  = mkVec3 5%R 2%R 3%R.
Proof.
  apply (offset_in_volume_reaches_the_hit_exactly
           ExOffset.cofactor_inverse_of ExOffset.doubled_at_1_2_3 (mkVec3 5%R 2%R 3%R)).
  exact doubled_at_1_2_3_has_cofactor_inverse.
Defined.

(** During the drag of the text the session's volume is the text of the
    first instance, and the drag step is defined. *)
Lemma drag_step_of_text_is_defined :
  on_mouse_surface_drag Ex.left_drag Ex.looking_down (Ex.in_drag Ex.text_session Ex.plate) None
  <> Undefined.
Proof.
  apply (session_volume_stays_in_the_scene
           Ex.left_drag Ex.looking_down (Ex.in_drag Ex.text_session Ex.plate) None).
  - intros sd Hsd.
    apply Some_eq in Hsd.
    subst sd.
    vm_compute.
    discriminate.
  - discriminate.
Defined.

(* ------------------------------------------------------------------------- *)
(** * Properties of the download *)

Module FileGetProperties.

Import Downloader.
Local Open Scope Z_scope.

(** ** The last slash *)

Lemma find_last_from_absent (c : ascii) (s : std_string) (i found : Z) :
  ~ In c s -> find_last_from c s i found = found.
Proof.
  revert i found.
  induction s as [ | a s IH]; intros i found Hnot; cbn; [reflexivity | ].
  destruct (Ascii.eqb_spec a c) as [-> | _].
  - exfalso; apply Hnot; now left.
  - apply IH; intros H; apply Hnot; now right.
Qed.

Lemma find_last_from_last (c : ascii) (pre name : std_string) (i found : Z) :
  ~ In c name ->
  find_last_from c (pre ++ c :: name) i found = i + size pre.
Proof.
  intros Hname.
  revert i found.
  induction pre as [ | a pre IH]; intros i found.
  - rewrite app_nil_l.
    cbn [find_last_from].
    rewrite Ascii.eqb_refl, (@find_last_from_absent c name (i + 1) i Hname).
    unfold size; cbn [List.length]; lia.
  - rewrite <- app_comm_cons.
    cbn [find_last_from].
    rewrite IH.
    unfold size; cbn [List.length]; lia.
Qed.

Lemma filename_after_last_slash (pre name : std_string) :
  size (pre ++ "/"%char :: name) <= max_size ->
  ~ In "/"%char name ->
  filename_from_url (pre ++ "/"%char :: name) = Some name.
Proof.
  intros Hsize Hname.
  unfold filename_from_url, find_last_of.
  rewrite (@find_last_from_last "/"%char pre name 0 npos Hname).
  unfold size, max_size, npos, size_t, substr, size in *.
  rewrite length_app in *; cbn [List.length] in *.
  set (p := List.length pre) in *.
  set (n := List.length name) in *.
  replace (0 + Z.of_nat p =? 2 ^ 64 - 1) with false by (symmetry; apply Z.eqb_neq; lia).
  cbn [andb].
  rewrite (Z.mod_small (0 + Z.of_nat p + 1)) by lia.
  rewrite (Z.mod_small (Z.of_nat (p + S n) - (0 + Z.of_nat p))) by lia.
  rewrite (Z.mod_small (Z.of_nat (p + S n) - (0 + Z.of_nat p) + 1)) by lia.
  destruct (Z.ltb_spec (Z.of_nat (p + S n)) (0 + Z.of_nat p + 1)) as [Hlt | _]; [lia | ].
  apply f_equal.
  replace (Z.to_nat (0 + Z.of_nat p + 1)) with (p + 1)%nat by lia.
  rewrite skipn_app.
  rewrite skipn_all2 by (subst p; lia).
  replace (p + 1 - List.length pre)%nat with 1%nat by (subst p; lia).
  cbn [skipn].
  rewrite app_nil_l.
  apply firstn_all2.
  subst n; lia.
Qed.

Lemma filename_without_slash (url : std_string) :
  size url <= max_size ->
  ~ In "/"%char url ->
  filename_from_url url = Some [].
Proof.
  intros Hsize Hnot.
  unfold filename_from_url, find_last_of.
  rewrite (@find_last_from_absent "/"%char url 0 npos Hnot).
  rewrite Z.eqb_refl.
  cbn [andb].
  destruct (Z.eqb_spec npos (size_t (size url - 1))) as [Hwrap | _]; cbn [negb]; [ | reflexivity].
  (* only the empty string has size() - 1 == npos *)
  assert (Hempty : url = []).
  { destruct url as [ | a url]; [reflexivity | exfalso].
    unfold npos, size_t, size, max_size in *; cbn [List.length] in *.
    rewrite Z.mod_small in Hwrap by lia.
    lia. }
  subst url.
  reflexivity.
Qed.

Lemma last_occurrence (c : ascii) (s : std_string) :
  ~ In c s
  \/ exists pre name : std_string, s = pre ++ c :: name /\ ~ In c name.
Proof.
  induction s as [ | a s IH]; [left; intros [] | ].
  destruct IH as [Hnot | (pre & name & -> & Hname)].
  - destruct (Ascii.eqb_spec a c) as [-> | Ha].
    + right; exists [], s; split; [reflexivity | exact Hnot].
    + left; intros [H | H]; [now apply Ha | now apply Hnot].
  - right; exists (a :: pre), name; split; [reflexivity | exact Hname].
Qed.

(** [filename_from_url] never throws and returns what follows the last
    slash of the url: nothing when the url ends with the slash, and nothing
    either when the url has no slash at all, whatever else it holds. *)
Theorem filename_from_url_is_what_follows_the_last_slash (url : std_string) :
  size url <= max_size ->
  filename_from_url url <> None
  /\ (forall pre name : std_string,
        url = pre ++ "/"%char :: name -> ~ In "/"%char name ->
        filename_from_url url = Some name)
  /\ (~ In "/"%char url -> filename_from_url url = Some []).
Proof.
  intros Hsize.
  split; [ | split].
  - destruct (last_occurrence "/"%char url) as [Hnot | (pre & name & -> & Hname)].
    + now rewrite filename_without_slash.
    + now rewrite filename_after_last_slash.
  - intros pre name -> Hname.
    now apply filename_after_last_slash.
  - now apply filename_without_slash.
Qed.

(** ** The url decoded *)

Lemma string_of_c_str_has_no_nul (buffer : list ascii) :
  ~ In Ascii.zero (string_of_c_str buffer).
Proof.
  induction buffer as [ | a rest IH]; cbn [string_of_c_str]; [intros [] | ].
  destruct (Ascii.eqb_spec a Ascii.zero) as [-> | Ha]; [intros [] | ].
  intros [H | H]; [now apply Ha | now apply IH].
Qed.

Lemma string_of_c_str_cuts_at_nul (buffer : list ascii) :
  (buffer = string_of_c_str buffer)
  \/ exists rest : list ascii, buffer = string_of_c_str buffer ++ Ascii.zero :: rest.
Proof.
  induction buffer as [ | a rest IH]; cbn [string_of_c_str]; [now left | ].
  destruct (Ascii.eqb_spec a Ascii.zero) as [-> | Ha].
  - right; now exists rest.
  - destruct IH as [IH | [rest' IH]].
    + left; now f_equal.
    + right; exists rest'.
      rewrite <- app_comm_cons.
      now f_equal.
Qed.

Lemma escape_url_has_no_nul {curl : Curl} (unescaped : std_string) :
  ~ In Ascii.zero (escape_url unescaped).
Proof.
  unfold escape_url.
  destruct curl_easy_init as [handle | ]; [ | intros []].
  destruct (curl_easy_unescape _ _ _) as [decoded | ]; [ | intros []].
  apply string_of_c_str_has_no_nul.
Qed.

(** [escape_url] returns the decoded url up to its first NUL byte: the whole
    of it when it holds none, and what precedes the first one otherwise (a
    [%00] in the url cuts it). *)
Theorem escape_url_is_cut_at_first_nul {curl : Curl}
    (unescaped : std_string) (handle : CURL) (decoded : list ascii) :
  curl_easy_init = Some handle ->
  curl_easy_unescape handle unescaped (size unescaped) = Some decoded ->
  ~ In Ascii.zero (escape_url unescaped)
  /\ (decoded = escape_url unescaped
      \/ exists rest : list ascii, decoded = escape_url unescaped ++ Ascii.zero :: rest).
Proof.
  intros Hinit Hdecoded.
  unfold escape_url.
  rewrite Hinit, Hdecoded.
  split; [apply string_of_c_str_has_no_nul | apply string_of_c_str_cuts_at_nul].
Qed.

(** The file name [get_perform] saves the download under is a plain name:
    whatever libcurl does, it is a tail of the decoded url that holds no
    slash and no NUL byte. *)
Theorem filename_of_download_is_a_plain_name {curl : Curl} (m_url : std_string) :
  size (escape_url m_url) <= max_size ->
  exists name : std_string,
    filename_of_download m_url = Some name
    /\ ~ In "/"%char name
    /\ ~ In Ascii.zero name
    /\ exists pre : std_string, escape_url m_url = pre ++ name.
Proof.
  intros Hsize.
  unfold filename_of_download.
  pose proof (escape_url_has_no_nul m_url) as Hnul.
  destruct (last_occurrence "/"%char (escape_url m_url)) as [Hnot | (pre & name & E & Hname)].
  - exists [].
    rewrite filename_without_slash by assumption.
    repeat split; try (intros []).
    exists (escape_url m_url); now rewrite app_nil_r.
  - rewrite E in *.
    exists name.
    rewrite filename_after_last_slash by assumption.
    repeat split; [exact Hname | | ].
    + intros H; apply Hnul; apply in_or_app; right; now right.
    + exists (pre ++ ["/"%char]); now rewrite <- app_assoc.
Qed.

(** ** The search for a free file name *)

Lemma to_string_injective (a b : Z) :
  0 <= a -> 0 <= b -> to_string a = to_string b -> a = b.
Proof.
  intros Ha Hb H.
  unfold to_string in H.
  apply (f_equal string_of_list_ascii) in H.
  rewrite !string_of_list_ascii_of_string in H.
  apply (f_equal NilEmpty.uint_of_string) in H.
  rewrite !NilEmpty.usu in H.
  injection H as H.
  apply (f_equal N.of_uint) in H.
  rewrite !DecimalN.Unsigned.of_to in H.
  lia.
Qed.

Lemma candidate_injective (just_filename ext : std_string) (a b : Z) :
  0 <= a -> 0 <= b ->
  candidate just_filename a ++ ext = candidate just_filename b ++ ext -> a = b.
Proof.
  intros Ha Hb H.
  apply app_inv_tail in H.
  unfold candidate in H.
  destruct (Z.eqb_spec a 0) as [-> | Ha0], (Z.eqb_spec b 0) as [-> | Hb0];
    try reflexivity.
  - apply (f_equal (@List.length ascii)) in H.
    rewrite length_app in H; cbn [List.length] in H; lia.
  - apply (f_equal (@List.length ascii)) in H.
    rewrite length_app in H; cbn [List.length] in H; lia.
  - apply app_inv_head in H.
    injection H as H.
    apply app_inv_tail in H.
    now apply to_string_injective.
Qed.

Section FreeFilename.

Context {fs : FileSystem}.
Variables (m_dest_folder : path) (just_filename ext : std_string).

Lemma free_filename_search (fuel : nat) (v : Z) :
  0 <= v ->
  v + Z.of_nat fuel < 2 ^ 64 ->
  (forall u, 0 <= u < v ->
     exists_ (path_append m_dest_folder (candidate just_filename u ++ ext)) = true) ->
  (exists version : Z,
     free_filename fuel m_dest_folder just_filename ext v (candidate just_filename v)
     = Some (version, candidate just_filename version)
     /\ v <= version < v + Z.of_nat fuel
     /\ exists_ (path_append m_dest_folder (candidate just_filename version ++ ext)) = false
     /\ forall u, 0 <= u < version ->
          exists_ (path_append m_dest_folder (candidate just_filename u ++ ext)) = true)
  \/ (free_filename fuel m_dest_folder just_filename ext v (candidate just_filename v) = None
      /\ forall u, 0 <= u < v + Z.of_nat fuel ->
           exists_ (path_append m_dest_folder (candidate just_filename u ++ ext)) = true).
Proof.
  revert v.
  induction fuel as [ | fuel IH]; intros v Hv Hbound Hbelow.
  - right; split; [reflexivity | ].
    intros u Hu; apply Hbelow; lia.
  - cbn [free_filename].
    destruct (exists_ (path_append m_dest_folder (candidate just_filename v ++ ext))) eqn:Hv_exists.
    + assert (Hnext : size_t (v + 1) = v + 1) by (unfold size_t; apply Z.mod_small; lia).
      rewrite Hnext.
      assert (Hcand : just_filename ++ "("%char :: to_string (v + 1) ++ [")"%char]
                      = candidate just_filename (v + 1)).
      { unfold candidate.
        destruct (Z.eqb_spec (v + 1) 0); [lia | reflexivity]. }
      rewrite Hcand.
      destruct (IH (v + 1)) as [(version & Hfound & Hrange & Hfree & Hmin) | [Hnone Hall]];
        [lia | lia | | | ].
      * intros u Hu.
        destruct (Z.eq_dec u v) as [-> | Hne]; [exact Hv_exists | apply Hbelow; lia].
      * left; exists version; repeat split; auto; lia.
      * right; split; [exact Hnone | ].
        intros u Hu; apply Hall; lia.
    + left; exists v; repeat split; auto; lia.
Qed.

(** Not every one of the first names tried is taken, when there are more
    of them than paths that exist. *)
Lemma not_all_candidates_exist (existing : list path) :
  (forall p : path, exists_ p = true -> In p existing) ->
  (forall a b : std_string,
     path_append m_dest_folder a = path_append m_dest_folder b -> a = b) ->
  ~ (forall u : Z,
       0 <= u < 0 + Z.of_nat (S (List.length existing)) ->
       exists_ (path_append m_dest_folder (candidate just_filename u ++ ext)) = true).
Proof.
  intros Hfinite Hinj Hall.
  set (n := List.length existing) in *.
  set (tried := fun k : nat =>
                  path_append m_dest_folder (candidate just_filename (Z.of_nat k) ++ ext)).
  assert (Hnodup : NoDup (map tried (seq 0 (S n)))).
  { apply Injective_map_NoDup; [ | apply seq_NoDup].
    intros a b E.
    unfold tried in E.
    apply Hinj in E.
    apply candidate_injective in E; lia. }
  assert (Hincl : incl (map tried (seq 0 (S n))) existing).
  { intros p Hp.
    apply in_map_iff in Hp.
    destruct Hp as (k & <- & Hk).
    apply in_seq in Hk.
    apply Hfinite, Hall; lia. }
  pose proof (NoDup_incl_length Hnodup Hincl) as Hlen.
  rewrite length_map, length_seq in Hlen.
  lia.
Qed.

(** The loop of the completion handler ends, on a name that is not taken,
    at the first version that is free: in a folder where only the paths of
    [existing] exist, one test more than [existing] has entries is enough,
    and the version found is at most the number of those entries. *)
Theorem free_filename_finds_the_first_free_name (existing : list path) :
  (forall p : path, exists_ p = true -> In p existing) ->
  (forall a b : std_string,
     path_append m_dest_folder a = path_append m_dest_folder b -> a = b) ->
  Z.of_nat (List.length existing) < 2 ^ 64 - 1 ->
  exists version : Z,
    free_filename (S (List.length existing)) m_dest_folder just_filename ext 0 just_filename
    = Some (version, candidate just_filename version)
    /\ 0 <= version <= Z.of_nat (List.length existing)
    /\ exists_ (path_append m_dest_folder (candidate just_filename version ++ ext)) = false
    /\ forall u : Z,
         0 <= u < version ->
         exists_ (path_append m_dest_folder (candidate just_filename u ++ ext)) = true.
Proof.
  intros Hfinite Hinj Hbound.
  destruct (free_filename_search (S (List.length existing)) (v := 0))
    as [(version & Hfound & Hrange & Hfree & Hmin) | [_ Hall]];
    [lia | lia | intros u Hu; lia | | ].
  - exists version; repeat split; auto; lia.
  - now destruct (@not_all_candidates_exist existing Hfinite Hinj).
Qed.

End FreeFilename.

(** ** The completion handler *)

Lemma prefix_of_stem (stem ext : std_string) :
  size (stem ++ ext) <= max_size ->
  prefix_of (stem ++ ext) (size_t (size (stem ++ ext) - size ext)) = stem.
Proof.
  intros Hsize.
  unfold prefix_of, size_t, size, max_size in *.
  rewrite length_app in *.
  rewrite Z.mod_small by lia.
  replace (Z.to_nat _) with (List.length stem + 0)%nat by lia.
  rewrite firstn_app_2.
  cbn [firstn].
  apply app_nil_r.
Qed.

Section OnComplete.

Context {fs : FileSystem}.
Variables (m_id : Z) (m_dest_folder : path) (body : std_string).

(** In a folder that stays as it is during the call, where only the paths
    of [existing] exist, [exists] answers every test and different names
    give different paths, the completion handler saves the download under
    the first name, among the file name and the file name with (1), (2),
    ... put before its extension, that no file of the folder had when it
    was tested; it queues one event with the id of the download,
    [EVT_FILE_COMPLETE] with the path of that name when writing and
    renaming succeed, [EVT_FILE_ERROR] otherwise.  A file that another
    download creates between the test and the renaming, and a test that
    throws, are not covered. *)
Theorem on_complete_saves_under_the_first_free_name
    (existing : list path) (m_filename : std_string) :
  (forall p : path, exists_ p = true -> In p existing) ->
  (forall a b : std_string,
     path_append m_dest_folder a = path_append m_dest_folder b -> a = b) ->
  Z.of_nat (List.length existing) < 2 ^ 64 - 1 ->
  let ext := extension (path_append m_dest_folder m_filename) in
  let just_filename := prefix_of m_filename (size_t (size m_filename - size ext)) in
  exists version : Z,
    let name := candidate just_filename version ++ ext in
    0 <= version <= Z.of_nat (List.length existing)
    /\ exists_ (path_append m_dest_folder name) = false
    /\ (forall u : Z,
          0 <= u < version ->
          exists_ (path_append m_dest_folder (candidate just_filename u ++ ext)) = true)
    /\ on_complete (S (List.length existing)) m_id m_dest_folder m_filename body
       = Some (name,
               (if write_and_rename
                     (path_append m_dest_folder
                        (name ++ "."%char :: to_string get_current_pid
                              ++ list_ascii_of_string ".download"))
                     (path_append m_dest_folder name) body
                then mkCommandEvent EVT_FILE_COMPLETE
                                    (path_string (path_append m_dest_folder name)) m_id
                else mkCommandEvent EVT_FILE_ERROR
                                    (list_ascii_of_string "Failed to write and move.") m_id)).
Proof.
  intros Hfinite Hinj Hbound ext just_filename.
  destruct (free_filename_search m_dest_folder just_filename ext
                                 (S (List.length existing)) (v := 0))
    as [(version & Hfound & Hrange & Hfree & Hmin) | [_ Hall]];
    [lia | lia | intros u Hu; lia | | ];
    [ | now destruct (@not_all_candidates_exist _ m_dest_folder just_filename ext existing
                                               Hfinite Hinj)].
  change (candidate just_filename 0) with just_filename in Hfound.
  exists version.
  repeat split; try assumption; try lia.
  unfold on_complete.
  fold ext; fold just_filename.
  rewrite Hfound.
  now destruct (write_and_rename _ _ _).
Qed.

(** A download whose file name is not taken keeps it: when no file of the
    folder has the name, the completion handler saves the download under
    that very name, provided the extension the file system reads off the
    path is the end of the name. *)
Theorem on_complete_keeps_a_free_name (fuel : nat) (stem m_filename : std_string) :
  m_filename = stem ++ extension (path_append m_dest_folder m_filename) ->
  size m_filename <= max_size ->
  exists_ (path_append m_dest_folder m_filename) = false ->
  on_complete (S fuel) m_id m_dest_folder m_filename body
  = Some (m_filename,
          (if write_and_rename
                (path_append m_dest_folder
                   (m_filename ++ "."%char :: to_string get_current_pid
                         ++ list_ascii_of_string ".download"))
                (path_append m_dest_folder m_filename) body
           then mkCommandEvent EVT_FILE_COMPLETE
                               (path_string (path_append m_dest_folder m_filename)) m_id
           else mkCommandEvent EVT_FILE_ERROR
                               (list_ascii_of_string "Failed to write and move.") m_id)).
Proof.
  intros Hname Hsize Hfree.
  unfold on_complete.
  set (ext := extension (path_append m_dest_folder m_filename)) in *.
  assert (Hstem : prefix_of m_filename (size_t (size m_filename - size ext)) = stem).
  { rewrite Hname; apply prefix_of_stem; now rewrite <- Hname. }
  rewrite Hstem.
  cbn [free_filename].
  rewrite <- Hname, Hfree.
  cbv beta iota zeta.
  rewrite <- Hname.
  now destruct (write_and_rename _ _ _).
Qed.

End OnComplete.

(** ** The download of [model.3mf] into a folder that has it *)

Import ExDownload.

Lemma filename_of_model_url :
  filename_from_url (str "https://files.example.com/42/model.3mf") = Some (str "model.3mf").
Proof.
  apply (proj1 (proj2 (filename_from_url_is_what_follows_the_last_slash
                         (str "https://files.example.com/42/model.3mf")
                         ltac:(vm_compute; discriminate)))
               (str "https://files.example.com/42") (str "model.3mf")).
  - reflexivity.
  - cbn; intuition discriminate.
Defined.

Lemma escape_url_of_nul_in_name :
  ~ In Ascii.zero (escape_url (str "https://h/my%20model%00.3mf"))
  /\ (percent_decode (str "https://h/my%20model%00.3mf")
      = escape_url (str "https://h/my%20model%00.3mf")
      \/ exists rest : list ascii,
           percent_decode (str "https://h/my%20model%00.3mf")
           = escape_url (str "https://h/my%20model%00.3mf") ++ Ascii.zero :: rest).
Proof.
  apply (escape_url_is_cut_at_first_nul (curl := curl)
           (str "https://h/my%20model%00.3mf") (handle := tt)); reflexivity.
Defined.

Lemma filename_of_download_of_model_url :
  exists name : std_string,
    filename_of_download (str "https://files.example.com/my%20models/model%2F1.3mf") = Some name
    /\ ~ In "/"%char name
    /\ ~ In Ascii.zero name
    /\ exists pre : std_string,
         escape_url (str "https://files.example.com/my%20models/model%2F1.3mf") = pre ++ name.
Proof.
  apply (filename_of_download_is_a_plain_name (curl := curl)).
  vm_compute; discriminate.
Defined.

Lemma exists_in_folder (files : list std_string) (p : std_string) :
  @exists_ (in_folder files) p = true -> In p files.
Proof.
  cbn.
  now destruct (in_dec (list_eq_dec ascii_dec) p files).
Qed.

Lemma path_append_in_folder_injective (files : list std_string) (folder a b : std_string) :
  @path_append (in_folder files) folder a = @path_append (in_folder files) folder b -> a = b.
Proof.
  cbn.
  intros H.
  apply app_inv_head in H.
  now injection H.
Qed.

Lemma free_filename_for_model :
  exists version : Z,
    free_filename (fs := in_folder taken) 3 downloads (str "model") (str ".3mf") 0 (str "model")
    = Some (version, candidate (str "model") version)
    /\ 0 <= version <= 2
    /\ @exists_ (in_folder taken)
         (@path_append (in_folder taken) downloads (candidate (str "model") version ++ str ".3mf"))
       = false
    /\ forall u : Z,
         0 <= u < version ->
         @exists_ (in_folder taken)
           (@path_append (in_folder taken) downloads (candidate (str "model") u ++ str ".3mf"))
         = true.
Proof.
  apply (free_filename_finds_the_first_free_name
           (fs := in_folder taken) downloads (str "model") (str ".3mf") taken).
  - apply exists_in_folder.
  - apply path_append_in_folder_injective.
  - vm_compute; reflexivity.
Defined.

Lemma on_complete_for_model :
  exists version : Z,
    0 <= version <= 2
    /\ on_complete (fs := in_folder taken) 3 7 downloads (str "model.3mf") (str "solid")
       = Some (candidate (str "model") version ++ str ".3mf",
               mkCommandEvent EVT_FILE_COMPLETE
                 (downloads ++ "/"%char :: candidate (str "model") version ++ str ".3mf") 7).
Proof.
  destruct (on_complete_saves_under_the_first_free_name
              (fs := in_folder taken) 7 downloads (str "solid") taken (str "model.3mf")
              (@exists_in_folder taken)
              (@path_append_in_folder_injective taken downloads)
              ltac:(vm_compute; reflexivity))
    as (version & Hrange & _ & _ & Hdone).
  exists version.
  split; [exact Hrange | exact Hdone].
Defined.

Lemma on_complete_for_part :
  on_complete (fs := in_folder taken) 1 8 downloads (str "part.stl") (str "solid")
  = Some (str "part.stl",
          mkCommandEvent EVT_FILE_COMPLETE (str "/home/user/Downloads/part.stl") 8).
Proof.
  apply (on_complete_keeps_a_free_name
           (fs := in_folder taken) 8 downloads (str "solid") 0 (str "part")
           (m_filename := str "part.stl"));
    vm_compute; (reflexivity || discriminate).
Defined.

End FileGetProperties.
